(** * Supermarket billing: inventory, low-stock heap, cart and undo log

    A shallow embedding of [main.py] (classes [Product], [Inventory],
    [BillingSystem] and the two handlers of [App] that complete or cancel
    a sale), followed by the properties of the design document.

    Conventions of the embedding:
    - a Python [int] is a [Z]; a Python [float] is an IEEE-754 binary64
      value in the representation of [SpecFloat], with the operations of
      that library at precision 53 and maximal exponent 1024;
    - the [Product] objects are shared between the linked list and the hash
      index; the model keeps one copy of each record, in [index], and the
      linked list holds the identifiers of its nodes in link order;
    - a Python [str] is a sequence of code points; a [string] holds its
      UTF-8 encoding, as a string literal of this file does, and a slice
      of a [str] counts code points, not bytes;
    - the cart is a Python [dict], whose iteration order is the insertion
      order: an association list;
    - [heapq] is Python's library and is modelled by its contract: the list
      holds the entries in some arrangement and [heappop] takes a least
      entry out of it;
    - a method that mutates its object returns the new state next to its
      result; an exception is a result of its own, next to the state at the
      moment it is raised. *)

From Stdlib Require Import ZArith String SpecFloat Permutation Sorted Lia.
From stdpp Require Import gmap list.

Local Open Scope Z_scope.

(** ** Python results *)

Inductive exn := OverflowError | KeyError.

Inductive outcome (A : Type) :=
| Return (a : A)
| Raise (e : exn).
Arguments Return {A} a.
Arguments Raise {A} e.

(** ** binary64 floating point *)

Module Float64.

Definition prec : Z := 53.
Definition emax : Z := 1024.

Definition float := spec_float.

Definition add : float -> float -> float := SFadd prec emax.
Definition sub : float -> float -> float := SFsub prec emax.
Definition mul : float -> float -> float := SFmul prec emax.
Definition ltb : float -> float -> bool := SFltb.
Definition leb : float -> float -> bool := SFleb.
(** [x > y] *)
Definition gtb (x y : float) : bool := SFltb y x.

(** [math.isnan(x)]: every comparison with such a value is false. *)
Definition is_nan (x : float) : bool :=
  match x with
  | S754_nan => true
  | _ => false
  end.

(** [float(n)] for an [int]: round to nearest, ties to even; CPython
    raises [OverflowError] ("int too large to convert to float") when the
    rounded value is not finite. *)
Definition of_int (n : Z) : option float :=
  match binary_normalize prec emax n 0 false with
  | S754_infinity _ => None
  | f => Some f
  end.

(** The literals of the source. [0.10] and [0.05] are not binary64
    values: Python reads them as the nearest ones. *)
Definition zero : float := S754_zero false.                               (* 0.0 *)
Definition lit_500 : float := S754_finite false 8796093022208000 (-44).   (* 500 *)
Definition lit_200 : float := S754_finite false 7036874417766400 (-45).   (* 200 *)
Definition lit_0_10 : float := S754_finite false 7205759403792794 (-56).  (* 0.10 *)
Definition lit_0_05 : float := S754_finite false 7205759403792794 (-57).  (* 0.05 *)

End Float64.

Abbreviation float := Float64.float.

(** ** [str] *)

Module PyStr.

(** A byte [10xxxxxx] continues the code point that an earlier byte
    began. *)
Definition is_continuation (c : Ascii.ascii) : bool :=
  match c with
  | Ascii.Ascii _ _ _ _ _ _ b6 b7 => b7 && negb b6
  end.

(** [len(s)]: the code points of [s]. *)
Fixpoint len (s : string) : nat :=
  match s with
  | EmptyString => O
  | String c s' => if is_continuation c then len s' else S (len s')
  end.

(** [s[:n]]: the first [n] code points of [s], each with all its bytes. *)
Fixpoint prefix (n : nat) (s : string) {struct s} : string :=
  match s with
  | EmptyString => EmptyString
  | String c s' =>
      if is_continuation c then String c (prefix n s')
      else
        match n with
        | O => EmptyString
        | S n' => String c (prefix n' s')
        end
  end.

End PyStr.

(** ** Insertion-ordered dictionary [Dict[int, int]] *)

Module PyDict.

Definition t := list (Z * Z).

(** [d.get(k)] *)
Fixpoint get (k : Z) (d : t) : option Z :=
  match d with
  | [] => None
  | (k', v) :: d' => if k' =? k then Some v else get k d'
  end.

(** [d.get(k, dflt)] *)
Definition get_default (k dflt : Z) (d : t) : Z :=
  match get k d with Some v => v | None => dflt end.

(** [d[k] = v]: an existing key keeps its place, a new key goes last. *)
Fixpoint set (k v : Z) (d : t) : t :=
  match d with
  | [] => [(k, v)]
  | (k', v') :: d' => if k' =? k then (k, v) :: d' else (k', v') :: set k v d'
  end.

(** [d.pop(k, None)], for its effect on [d]. *)
Fixpoint pop (k : Z) (d : t) : t :=
  match d with
  | [] => []
  | (k', v') :: d' => if k' =? k then pop k d' else (k', v') :: pop k d'
  end.

Definition keys (d : t) : list Z := map fst d.

(** What a [dict] guarantees: no key twice. *)
Definition wf (d : t) : Prop := NoDup (keys d).

End PyDict.

(** ** [heapq] on a list of [(quantity, id)] tuples *)

Module Heapq.

Definition entry := (Z * Z)%type.

(** Python's order on tuples of two [int]s. *)
Definition entry_leb (a b : entry) : bool :=
  (fst a <? fst b) || ((fst a =? fst b) && (snd a <=? snd b)).

Definition entry_eqb (a b : entry) : bool :=
  (fst a =? fst b) && (snd a =? snd b).

Definition heappush (h : list entry) (x : entry) : list entry := x :: h.

(** The least of [m] and the entries of [h]. *)
Fixpoint least (m : entry) (h : list entry) : entry :=
  match h with
  | [] => m
  | x :: h' => least (if entry_leb m x then m else x) h'
  end.

Fixpoint remove_one (m : entry) (h : list entry) : list entry :=
  match h with
  | [] => []
  | x :: h' => if entry_eqb x m then h' else x :: remove_one m h'
  end.

(** [heappop]: [None] stands for the [IndexError] of an empty heap. *)
Definition heappop (h : list entry) : option (entry * list entry) :=
  match h with
  | [] => None
  | x :: h' => let m := least x h' in Some (m, remove_one m h)
  end.

End Heapq.

(** ** Domain model *)

Record Product := mkProduct {
  prod_id : Z;
  name : string;
  price : float;
  quantity : Z
}.

Definition with_quantity (p : Product) (q : Z) : Product :=
  mkProduct (prod_id p) (name p) (price p) q.

Record Inventory := mkInventory {
  chain : list Z;                       (* head .. tail, by product id *)
  index : gmap Z Product;               (* {id: Node} *)
  low_stock_heap : list Heapq.entry     (* (qty, id) *)
}.

Definition empty_inventory : Inventory := mkInventory [] ∅ [].

(** [Inventory.add_product] *)
Definition add_product (prod : Product) (inv : Inventory) : bool * Inventory :=
  match index inv !! prod_id prod with
  | Some _ => (false, inv)
  | None =>
      (true,
       mkInventory (chain inv ++ [prod_id prod])
                   (<[prod_id prod := prod]> (index inv))
                   (Heapq.heappush (low_stock_heap inv) (quantity prod, prod_id prod)))
  end.

(** [Inventory.to_list] *)
Definition to_list (inv : Inventory) : list Product :=
  omap (fun i => index inv !! i) (chain inv).

(** [Inventory.find] *)
Definition find (pid : Z) (inv : Inventory) : option Product :=
  index inv !! pid.

(** An assignment [prod.quantity = q] through a reference obtained from
    [find pid]. *)
Definition assign_quantity (pid q : Z) (inv : Inventory) : Inventory :=
  mkInventory (chain inv)
              (alter (fun p => with_quantity p q) pid (index inv))
              (low_stock_heap inv).

(** [Inventory.update_quantity] *)
Definition update_quantity (pid new_qty : Z) (inv : Inventory) : Inventory :=
  match index inv !! pid with
  | None => inv
  | Some _ =>
      let inv' := assign_quantity pid new_qty inv in
      mkInventory (chain inv') (index inv')
                  (Heapq.heappush (low_stock_heap inv') (new_qty, pid))
  end.

(** The [while] loop of [Inventory.k_lowest_stock]. It returns the heap
    that is left, the products appended to [results] and the entries
    appended to [popped], both in the order of the appends. Every
    iteration pops one entry, so the length of the heap is fuel enough
    ([low_stock_loop_fuel]). *)
Fixpoint low_stock_loop (fuel : nat) (k seen : Z) (idx : gmap Z Product)
    (heap : list Heapq.entry)
  : list Heapq.entry * list Product * list Heapq.entry :=
  match fuel with
  | O => (heap, [], [])
  | S fuel' =>
      if negb (bool_decide (heap = [])) && (seen <? k) then
        match Heapq.heappop heap with
        | None => (heap, [], [])
        | Some ((qty, pid), heap') =>
            match idx !! pid with
            | Some prod =>
                if quantity prod =? qty then
                  let '(h, results, popped) :=
                    low_stock_loop fuel' k (seen + 1) idx heap' in
                  (h, prod :: results, (qty, pid) :: popped)
                else
                  let '(h, results, popped) :=
                    low_stock_loop fuel' k seen idx heap' in
                  (h, results, (qty, pid) :: popped)
            | None =>
                let '(h, results, popped) :=
                  low_stock_loop fuel' k seen idx heap' in
                (h, results, (qty, pid) :: popped)
            end
        end
      else (heap, [], [])
  end.

(** [Inventory.k_lowest_stock] *)
Definition k_lowest_stock (k : Z) (inv : Inventory) : list Product * Inventory :=
  let '(heap, results, popped) :=
    low_stock_loop (length (low_stock_heap inv)) k 0 (index inv)
                   (low_stock_heap inv) in
  (results,
   mkInventory (chain inv) (index inv) (fold_left Heapq.heappush popped heap)).

(** ** Billing *)

Definition action := (string * Z * Z)%type.     (* ("add", id, qty) *)

Record BillingSystem := mkBilling {
  inventory : Inventory;
  cart : PyDict.t;                 (* {id: qty} *)
  undo_stack : list action;        (* the head is the top of the stack *)
  customer_name : string;
  subtotal : float;
  discount : float
}.

(** [BillingSystem.__init__] *)
Definition new_billing (inv : Inventory) : BillingSystem :=
  mkBilling inv [] [] EmptyString Float64.zero Float64.zero.

Definition set_inventory (inv : Inventory) (st : BillingSystem) : BillingSystem :=
  mkBilling inv (cart st) (undo_stack st) (customer_name st) (subtotal st) (discount st).

Definition set_customer_name (c : string) (st : BillingSystem) : BillingSystem :=
  mkBilling (inventory st) (cart st) (undo_stack st) c (subtotal st) (discount st).

(** The values [add_to_cart] returns: its three refusals, and the message
    of an accepted line with the name, the quantity and the line total
    that it prints. *)
Inductive add_result :=
| ProductNotFound                                   (* "Product not found." *)
| QuantityNotPositive                               (* "Quantity should be positive." *)
| NotEnoughStock                                    (* "Not enough stock available." *)
| Added (nm : string) (qty : Z) (line_total : float).

(** [BillingSystem.add_to_cart]. The line total of the returned message is
    computed last, after the three updates; [prod.price * qty] converts
    [qty] to a [float] first. *)
Definition add_to_cart (pid qty : Z) (st : BillingSystem)
  : outcome add_result * BillingSystem :=
  match find pid (inventory st) with
  | None => (Return ProductNotFound, st)
  | Some prod =>
      if qty <=? 0 then (Return QuantityNotPositive, st)
      else if quantity prod <? qty then (Return NotEnoughStock, st)
      else
        let q' := quantity prod - qty in
        let inv1 := assign_quantity pid q' (inventory st) in
        let cart' := PyDict.set pid (PyDict.get_default pid 0 (cart st) + qty) (cart st) in
        let inv2 := update_quantity pid q' inv1 in
        let st' := mkBilling inv2 cart' (("add"%string, pid, qty) :: undo_stack st)
                             (customer_name st) (subtotal st) (discount st) in
        match Float64.of_int qty with
        | None => (Raise OverflowError, st')
        | Some fq => (Return (Added (name prod) qty (Float64.mul (price prod) fq)), st')
        end
  end.

Inductive undo_result :=
| NothingToUndo                          (* "Nothing to undo." *)
| ProductMissing                         (* "Unexpected error: product missing." *)
| Undone (qty : Z) (nm : string)         (* "Undone: returned {qty} of {name}." *)
| UnknownAction.                         (* "Unknown action." *)

(** [BillingSystem.undo_last]. [self.cart[pid] -= qty] reads the entry
    first and raises [KeyError] when there is none. *)
Definition undo_last (st : BillingSystem) : outcome undo_result * BillingSystem :=
  match undo_stack st with
  | [] => (Return NothingToUndo, st)
  | (act, pid, qty) :: rest =>
      if String.eqb act "add" then
        match find pid (inventory st) with
        | None =>
            (Return ProductMissing,
             mkBilling (inventory st) (cart st) rest
                       (customer_name st) (subtotal st) (discount st))
        | Some prod =>
            let q' := quantity prod + qty in
            let inv1 := assign_quantity pid q' (inventory st) in
            let inv2 := update_quantity pid q' inv1 in
            match PyDict.get pid (cart st) with
            | None =>
                (Raise KeyError,
                 mkBilling inv2 (cart st) rest
                           (customer_name st) (subtotal st) (discount st))
            | Some c =>
                let cart1 := PyDict.set pid (c - qty) (cart st) in
                let cart2 := if c - qty <=? 0 then PyDict.pop pid cart1 else cart1 in
                (Return (Undone qty (name prod)),
                 mkBilling inv2 cart2 rest
                           (customer_name st) (subtotal st) (discount st))
            end
        end
      else
        (Return UnknownAction,
         mkBilling (inventory st) (cart st) rest
                   (customer_name st) (subtotal st) (discount st))
  end.

(** The loop of [compute_totals] over [self.cart.items()], from the running
    value [acc] of [self.subtotal]. The flag tells whether the loop ran to
    its end; it is [false] when a quantity does not convert to a [float],
    and the sum then stays where the exception left it. *)
Fixpoint sum_lines (inv : Inventory) (items : list (Z * Z)) (acc : float)
  : bool * float :=
  match items with
  | [] => (true, acc)
  | (pid, qty) :: items' =>
      match find pid inv with
      | Some prod =>
          match Float64.of_int qty with
          | Some fq => sum_lines inv items' (Float64.add acc (Float64.mul (price prod) fq))
          | None => (false, acc)
          end
      | None => sum_lines inv items' acc
      end
  end.

(** The discount slabs. *)
Definition slab (s : float) : float :=
  if Float64.gtb s Float64.lit_500 then Float64.mul Float64.lit_0_10 s
  else if Float64.gtb s Float64.lit_200 then Float64.mul Float64.lit_0_05 s
  else Float64.zero.

(** [BillingSystem.compute_totals] *)
Definition compute_totals (st : BillingSystem) : outcome unit * BillingSystem :=
  match sum_lines (inventory st) (cart st) Float64.zero with
  | (true, s) =>
      (Return tt,
       mkBilling (inventory st) (cart st) (undo_stack st) (customer_name st) s (slab s))
  | (false, s) =>
      (Raise OverflowError,
       mkBilling (inventory st) (cart st) (undo_stack st) (customer_name st) s (discount st))
  end.

(** The structured content of the bill that [checkout_summary] lays out as
    text. *)
Record bill_line := mkLine {
  line_name : string;         (* prod.name[:20] *)
  line_qty : Z;
  line_price : float;
  line_total : float
}.

Record bill := mkBill {
  bill_date : string;
  bill_customer : string;
  bill_lines : list bill_line;
  bill_subtotal : float;
  bill_discount : float;
  bill_total : float
}.

(** The item lines, in the order of [self.cart.items()]; [None] when
    [prod.price * qty] raises. *)
Fixpoint item_lines (inv : Inventory) (items : list (Z * Z)) : option (list bill_line) :=
  match items with
  | [] => Some []
  | (pid, qty) :: items' =>
      match find pid inv with
      | Some prod =>
          match Float64.of_int qty with
          | Some fq =>
              match item_lines inv items' with
              | Some ls =>
                  Some (mkLine (PyStr.prefix 20 (name prod)) qty (price prod)
                               (Float64.mul (price prod) fq) :: ls)
              | None => None
              end
          | None => None
          end
      | None => item_lines inv items'
      end
  end.

(** [BillingSystem.checkout_summary]; [now] is the formatted reading of the
    clock. *)
Definition checkout_summary (now : string) (st : BillingSystem)
  : outcome bill * BillingSystem :=
  match compute_totals st with
  | (Raise e, st1) => (Raise e, st1)
  | (Return _, st1) =>
      let total := Float64.sub (subtotal st1) (discount st1) in
      match item_lines (inventory st1) (cart st1) with
      | None => (Raise OverflowError, st1)
      | Some ls =>
          (Return (mkBill now (customer_name st1) ls (subtotal st1) (discount st1) total),
           st1)
      end
  end.

(** [BillingSystem.clear] *)
Definition clear (st : BillingSystem) : BillingSystem :=
  mkBilling (inventory st) [] [] EmptyString Float64.zero Float64.zero.

(** ** The two handlers of [App] that end a sale

    Only what they do to the inventory and the billing system; the widgets
    are left out. Both finish with [_refresh_cart_table_and_totals], which
    calls [compute_totals]. *)

Inductive checkout_result :=
| EmptyCart                              (* "No items in the cart." *)
| CheckedOut (b : bill).

(** [App._on_checkout] *)
Definition on_checkout (now : string) (st : BillingSystem)
  : outcome checkout_result * BillingSystem :=
  match cart st with
  | [] => (Return EmptyCart, st)
  | _ :: _ =>
      match checkout_summary now st with
      | (Raise e, st1) => (Raise e, st1)
      | (Return b, st1) =>
          match compute_totals (clear st1) with
          | (Raise e, st2) => (Raise e, st2)
          | (Return _, st2) => (Return (CheckedOut b), st2)
          end
      end
  end.

(** The loop of [App._on_clear_cart] over a copy of the cart's items. *)
Fixpoint restore_stock (items : list (Z * Z)) (inv : Inventory) : Inventory :=
  match items with
  | [] => inv
  | (pid, qty) :: items' =>
      match find pid inv with
      | Some prod =>
          let q' := quantity prod + qty in
          restore_stock items' (update_quantity pid q' (assign_quantity pid q' inv))
      | None => restore_stock items' inv
      end
  end.

(** [App._on_clear_cart] *)
Definition on_clear_cart (st : BillingSystem) : outcome unit * BillingSystem :=
  compute_totals (clear (set_inventory (restore_stock (cart st) (inventory st)) st)).

(** ** Runs of the system

    One step is a call of a public method of [Inventory] or
    [BillingSystem], or one of the two handlers above; [App] holds one
    inventory and hands the same object to its billing system, so the
    state of a run is the [BillingSystem] with its [inventory] field. A
    call that raises leaves the state it had reached. *)

Inductive op :=
| OpAddProduct (prod : Product)
| OpUpdateQuantity (pid new_qty : Z)
| OpLowStock (k : Z)
| OpSetCustomer (c : string)
| OpAddToCart (pid qty : Z)
| OpUndoLast
| OpComputeTotals
| OpCheckoutSummary (now : string)
| OpClear
| OpCheckout (now : string)
| OpClearCart.

Definition run (o : op) (st : BillingSystem) : BillingSystem :=
  match o with
  | OpAddProduct prod => set_inventory (snd (add_product prod (inventory st))) st
  | OpUpdateQuantity pid q => set_inventory (update_quantity pid q (inventory st)) st
  | OpLowStock k => set_inventory (snd (k_lowest_stock k (inventory st))) st
  | OpSetCustomer c => set_customer_name c st
  | OpAddToCart pid qty => snd (add_to_cart pid qty st)
  | OpUndoLast => snd (undo_last st)
  | OpComputeTotals => snd (compute_totals st)
  | OpCheckoutSummary now => snd (checkout_summary now st)
  | OpClear => clear st
  | OpCheckout now => snd (on_checkout now st)
  | OpClearCart => snd (on_clear_cart st)
  end.

Definition initial : BillingSystem := new_billing empty_inventory.

Definition run_all (os : list op) (st : BillingSystem) : BillingSystem :=
  fold_left (fun s o => run o s) os st.

Inductive reachable : BillingSystem -> Prop :=
| reachable_initial : reachable initial
| reachable_run o st : reachable st -> reachable (run o st).

(** ** Invariants of the data model *)

(** Every recorded action is an ["add"] of a positive quantity of a product
    of the index. *)
Definition undo_known (st : BillingSystem) : Prop :=
  Forall (fun a : action =>
            a.1.1 = "add"%string /\ is_Some (index (inventory st) !! a.1.2) /\ 0 < a.2)
         (undo_stack st).

(** Every cart entry reserves a positive quantity of a product of the
    index. *)
Definition cart_known (st : BillingSystem) : Prop :=
  Forall (fun e : Z * Z => is_Some (index (inventory st) !! e.1)) (cart st).

Definition cart_positive (d : PyDict.t) : Prop :=
  Forall (fun e : Z * Z => 0 < e.2) d.

(** Every quantity of the cart converts to a [float]. *)
Definition cart_converts (d : PyDict.t) : Prop :=
  Forall (fun e : Z * Z => is_Some (Float64.of_int e.2)) d.

(** The heap holds a snapshot of the current quantity of every product. *)
Definition heap_covers (inv : Inventory) : Prop :=
  map_Forall (fun pid prod => (quantity prod, pid) ∈ low_stock_heap inv) (index inv).

(** The key of a product in the index is its own identifier. *)
Definition index_keyed (inv : Inventory) : Prop :=
  map_Forall (fun pid prod => prod_id prod = pid) (index inv).

(** ** The words of the design document, for comparison *)

(** [float(n)] where it is defined. *)
Definition to_float (n : Z) : float :=
  binary_normalize Float64.prec Float64.emax n 0 false.

(** The current price of a product of the index. *)
Definition price_of (inv : Inventory) (pid : Z) : float :=
  match find pid inv with Some prod => price prod | None => Float64.zero end.

(** "Sum over cart entries of [price(id) * qty]", added up in the order of
    the cart from [0.0]. *)
Definition sum_of_lines (inv : Inventory) (d : PyDict.t) : float :=
  fold_left (fun acc e => Float64.add acc (Float64.mul (price_of inv e.1) (to_float e.2)))
            d Float64.zero.

(** The quantity that the entries of a cart reserve of one product. *)
Definition reserved (pid : Z) (d : PyDict.t) : Z :=
  foldr (fun e acc => if e.1 =? pid then e.2 + acc else acc) 0 d.

(** The quantity that the recorded actions took of one product. *)
Definition recorded (pid : Z) (u : list action) : Z :=
  foldr (fun a acc => if a.1.2 =? pid then a.2 + acc else acc) 0 u.

(** What one step may do to the inventory: products stay, and the heap and
    the keys of the index keep their invariants. *)
Definition index_grows (inv inv' : Inventory) : Prop :=
  forall pid, is_Some (index inv !! pid) -> is_Some (index inv' !! pid).

Definition inventory_step (inv inv' : Inventory) : Prop :=
  index_grows inv inv' /\
  (heap_covers inv -> heap_covers inv') /\
  (index_keyed inv -> index_keyed inv').

(** The cart holds, for every product, what the recorded actions took of
    it. *)
Definition balanced (st : BillingSystem) : Prop :=
  forall pid, PyDict.get_default pid 0 (cart st) = recorded pid (undo_stack st).

(** All of the above. *)
Definition consistent (st : BillingSystem) : Prop :=
  undo_known st /\ cart_known st /\ cart_positive (cart st) /\ PyDict.wf (cart st) /\
  balanced st /\ heap_covers (inventory st) /\ index_keyed (inventory st).

(** What one step may do to the cart and the undo stack: nothing, empty
    both, record a reservation, drop an action without touching the cart, or
    take an action back. *)
Inductive ledger_step (st st' : BillingSystem) : Prop :=
| ledger_same :
    cart st' = cart st -> undo_stack st' = undo_stack st -> ledger_step st st'
| ledger_cleared :
    cart st' = [] -> undo_stack st' = [] -> ledger_step st st'
| ledger_add pid qty :
    is_Some (index (inventory st) !! pid) -> 0 < qty ->
    cart st' = PyDict.set pid (PyDict.get_default pid 0 (cart st) + qty) (cart st) ->
    undo_stack st' = ("add"%string, pid, qty) :: undo_stack st ->
    ledger_step st st'
| ledger_dropped act pid qty :
    undo_stack st = (act, pid, qty) :: undo_stack st' ->
    cart st' = cart st ->
    act <> "add"%string \/ index (inventory st) !! pid = None
      \/ PyDict.get pid (cart st) = None ->
    ledger_step st st'
| ledger_undone pid qty c :
    undo_stack st = ("add"%string, pid, qty) :: undo_stack st' ->
    PyDict.get pid (cart st) = Some c ->
    cart st' = (if c - qty <=? 0 then PyDict.pop pid (PyDict.set pid (c - qty) (cart st))
                else PyDict.set pid (c - qty) (cart st)) ->
    ledger_step st st'.

(** [undo_last] again and again, [n] times. *)
Fixpoint undo_times (n : nat) (st : BillingSystem) : BillingSystem :=
  match n with
  | O => st
  | S n' => undo_times n' (snd (undo_last st))
  end.

(** ** The scenario of the design document *)

Definition lit_50 : float := S754_finite false 7036874417766400 (-47).    (* 50.00 *)

Definition rice : Product := mkProduct 1 "Rice" lit_50 100.

(** Empty inventory, then [add_product (1, "Rice", 50.00, 100)]. *)
Definition scenario_stocked : BillingSystem := run (OpAddProduct rice) initial.

(** ... then [add_to_cart 1 10]. *)
Definition scenario_reserved : BillingSystem := run (OpAddToCart 1 10) scenario_stocked.

(** ... then one more unit. *)
Definition scenario_reserved_more : BillingSystem := run (OpAddToCart 1 1) scenario_reserved.


(** ** Two more runs *)

(** A product is reserved and the reservation is undone: the heap now holds
    its current quantity twice. *)
Definition product_a : Product := mkProduct 1 "A" lit_50 10.
Definition product_b : Product := mkProduct 2 "B" lit_50 20.

Definition restocked : BillingSystem :=
  run_all [OpAddProduct product_a; OpAddProduct product_b; OpAddToCart 1 3; OpUndoLast]
          initial.

(** A product whose name has 25 code points, four of them of two bytes
    among the first 20. *)
Definition creme : Product := mkProduct 3 "Crème brûlée à la vanille" lit_50 10.

Definition dessert_reserved : BillingSystem :=
  run_all [OpAddProduct creme; OpAddToCart 3 2] initial.

(** A quantity beyond the range of [float] is stocked and reserved. *)
Definition bulk : Product := mkProduct 1 "Rice" lit_50 (2 ^ 1024).

Definition oversized : BillingSystem :=
  run_all [OpAddProduct bulk; OpAddToCart 1 (2 ^ 1024)] initial.

(** ** The statements about totals and checkout *)

(** The three slabs, read on a subtotal [s] and a discount [d], and the
    case that they leave: a subtotal that is not a number is neither above
    a threshold nor at or below one, and gets no discount. *)
Definition slab_rule (s d : float) : Prop :=
  (Float64.gtb s Float64.lit_500 = true -> d = Float64.mul Float64.lit_0_10 s) /\
  (Float64.gtb s Float64.lit_200 = true -> Float64.leb s Float64.lit_500 = true ->
   d = Float64.mul Float64.lit_0_05 s) /\
  (Float64.leb s Float64.lit_200 = true -> d = Float64.zero) /\
  (Float64.is_nan s = true -> d = Float64.zero).

(** The conditions of the four cases of [slab_rule], in its order. *)
Definition slab_cases (s : float) : list bool :=
  [Float64.gtb s Float64.lit_500;
   Float64.gtb s Float64.lit_200 && Float64.leb s Float64.lit_500;
   Float64.leb s Float64.lit_200;
   Float64.is_nan s].

(** One of the conditions holds and the others do not. *)
Definition exactly_one (bs : list bool) : Prop :=
  length (List.filter (fun b : bool => b) bs) = 1%nat.

(** [compute_totals] returns, with the sum of the lines as subtotal and the
    discount of its slab, which is one slab and no other, and the total of
    the bill is their difference. *)
Definition totals_computed (st : BillingSystem) : Prop :=
  exists st',
    compute_totals st = (Return tt, st') /\
    subtotal st' = sum_of_lines (inventory st) (cart st) /\
    slab_rule (subtotal st') (discount st') /\
    exactly_one (slab_cases (subtotal st')) /\
    forall now, exists b,
      checkout_summary now st = (Return b, st') /\
      bill_subtotal b = subtotal st' /\
      bill_discount b = discount st' /\
      bill_total b = Float64.sub (subtotal st') (discount st').

(** Checkout of a cart with entries: the bill carries the recomputed
    totals, cart, undo log and customer name are cleared, the inventory is
    as it was. *)
Definition checkout_completes (now : string) (st : BillingSystem) : Prop :=
  exists b st',
    on_checkout now st = (Return (CheckedOut b), st') /\
    bill_subtotal b = subtotal (snd (compute_totals st)) /\
    bill_discount b = discount (snd (compute_totals st)) /\
    bill_customer b = customer_name st /\
    cart st' = [] /\ undo_stack st' = [] /\ customer_name st' = EmptyString /\
    inventory st' = inventory st.

(** Checkout as the design document states it: refused on an empty cart,
    completed on any other. *)
Definition checkout_as_stated (now : string) (st : BillingSystem) : Prop :=
  (cart st = [] -> on_checkout now st = (Return EmptyCart, st)) /\
  (cart st <> [] -> checkout_completes now st).

(** ** The other handlers of [App]

    A handler reads its form first; [int] and [float] raise [ValueError] on
    a field that does not parse, and the handler then shows an error and
    returns. The model takes what the form holds once parsed, [None] for a
    field that does not parse; names come stripped, as [strip()] leaves
    them. *)

(** The rows that [_refresh_cart_table_and_totals] inserts in the cart
    table: id, name, quantity, price and line total, [None] when
    [prod.price * qty] raises. *)
Fixpoint cart_rows (inv : Inventory) (items : list (Z * Z))
  : option (list (Z * string * Z * float * float)) :=
  match items with
  | [] => Some []
  | (pid, qty) :: items' =>
      match find pid inv with
      | None => cart_rows inv items'
      | Some prod =>
          match Float64.of_int qty with
          | None => None
          | Some fq =>
              match cart_rows inv items' with
              | None => None
              | Some rows =>
                  Some ((pid, name prod, qty, price prod, Float64.mul (price prod) fq) :: rows)
              end
          end
      end
  end.

(** [App._refresh_cart_table_and_totals]: the rows, then [compute_totals]. *)
Definition refresh_cart_table_and_totals (st : BillingSystem)
  : outcome unit * BillingSystem :=
  match cart_rows (inventory st) (cart st) with
  | None => (Raise OverflowError, st)
  | Some _ => compute_totals st
  end.

Inductive add_product_result :=
| InvalidInput                 (* "Please enter valid ID, Price, and Quantity." *)
| EmptyName                    (* "Product name cannot be empty." *)
| NegativeValues               (* "Price and Quantity must be non-negative." *)
| DuplicateId                  (* "Product ID {pid} already exists." *)
| ProductAdded.                (* "Product added successfully!" *)

(** [App._on_add_product] *)
Definition on_add_product (form : option (Z * string * float * Z)) (st : BillingSystem)
  : add_product_result * BillingSystem :=
  match form with
  | None => (InvalidInput, st)
  | Some (pid, nm, pr, qty) =>
      match nm with
      | EmptyString => (EmptyName, st)
      | _ =>
          if Float64.ltb pr Float64.zero || (qty <? 0) then (NegativeValues, st)
          else
            match add_product (mkProduct pid nm pr qty) (inventory st) with
            | (false, _) => (DuplicateId, st)
            | (true, inv') => (ProductAdded, set_inventory inv' st)
            end
      end
  end.

(** [App._on_show_low_stock]: the five products it lists. *)
Definition on_show_low_stock (st : BillingSystem) : list Product * BillingSystem :=
  let '(prods, inv') := k_lowest_stock 5 (inventory st) in
  (prods, set_inventory inv' st).

Inductive scan_result :=
| InvalidScan                        (* "Enter valid Product ID and Quantity." *)
| ScanRefused (r : add_result)       (* the warning with the message of a refusal *)
| ScanAdded (r : add_result).        (* the message that starts with "Added" *)

(** [App._on_add_to_cart]: the customer name is stored before the scan is
    read. *)
Definition on_add_to_cart (customer : string) (scan : option (Z * Z)) (st : BillingSystem)
  : outcome scan_result * BillingSystem :=
  let st0 := set_customer_name customer st in
  match scan with
  | None => (Return InvalidScan, st0)
  | Some (pid, qty) =>
      match add_to_cart pid qty st0 with
      | (Raise e, st1) => (Raise e, st1)
      | (Return (Added nm q lt), st1) =>
          match refresh_cart_table_and_totals st1 with
          | (Raise e, st2) => (Raise e, st2)
          | (Return _, st2) => (Return (ScanAdded (Added nm q lt)), st2)
          end
      | (Return r, st1) => (Return (ScanRefused r), st1)
      end
  end.

(** [App._on_undo] *)
Definition on_undo (st : BillingSystem) : outcome undo_result * BillingSystem :=
  match undo_last st with
  | (Raise e, st1) => (Raise e, st1)
  | (Return msg, st1) =>
      match refresh_cart_table_and_totals st1 with
      | (Raise e, st2) => (Raise e, st2)
      | (Return _, st2) => (Return msg, st2)
      end
  end.

(** ** Sessions of the application

    One step is one of its six handlers. *)

Inductive event :=
| EvAddProduct (form : option (Z * string * float * Z))
| EvShowLowStock
| EvAddToCart (customer : string) (scan : option (Z * Z))
| EvUndo
| EvCheckout (now : string)
| EvClearCart.

Definition handle (e : event) (st : BillingSystem) : BillingSystem :=
  match e with
  | EvAddProduct form => snd (on_add_product form st)
  | EvShowLowStock => snd (on_show_low_stock st)
  | EvAddToCart customer scan => snd (on_add_to_cart customer scan st)
  | EvUndo => snd (on_undo st)
  | EvCheckout now => snd (on_checkout now st)
  | EvClearCart => snd (on_clear_cart st)
  end.

Inductive in_session : BillingSystem -> Prop :=
| session_start : in_session initial
| session_event e st : in_session st -> in_session (handle e st).

(** ** More invariants and measures *)

(** No product has a negative stock. *)
Definition stock_nonneg (inv : Inventory) : Prop :=
  map_Forall (fun _ prod => 0 <= quantity prod) (index inv).

(** What the form of [_on_add_product] lets in: a name, a quantity and a
    price that are not below zero. *)
Definition catalog_valid (inv : Inventory) : Prop :=
  map_Forall (fun _ prod => name prod <> EmptyString /\ 0 <= quantity prod /\
                            Float64.ltb (price prod) Float64.zero = false)
             (index inv).

(** The steps of the core that neither stock a negative quantity nor set
    one. *)
Definition keeps_stock (o : op) : Prop :=
  match o with
  | OpAddProduct prod => 0 <= quantity prod
  | OpUpdateQuantity _ q => 0 <= q
  | _ => True
  end.

(** The steps of a sale in progress: neither stocking nor completing. *)
Definition in_sale (o : op) : Prop :=
  match o with
  | OpAddProduct _ | OpUpdateQuantity _ _ | OpClear | OpCheckout _ => False
  | _ => True
  end.

(** The units of a product on the shelf and in the cart together. *)
Definition on_hand (pid : Z) (st : BillingSystem) : option Z :=
  (fun prod => quantity prod + PyDict.get_default pid 0 (cart st))
    <$> index (inventory st) !! pid.

(** The linked list and the index hold the same products, each once. *)
Definition chain_indexed (inv : Inventory) : Prop :=
  NoDup (chain inv) /\
  dom (index inv) = (list_to_set (chain inv) : gset Z).

(** A step that neither adds a product nor moves one in the list. *)
Definition same_products (inv inv' : Inventory) : Prop :=
  chain inv' = chain inv /\ dom (index inv') = dom (index inv).

(** A step that leaves every record what it was, its quantity apart. *)
Definition same_records (inv inv' : Inventory) : Prop :=
  forall pid prod', index inv' !! pid = Some prod' ->
    exists prod, index inv !! pid = Some prod /\
                 prod' = with_quantity prod (quantity prod').

(** Every entry of the heap names a product of the index. *)
Definition heap_known (inv : Inventory) : Prop :=
  Forall (fun e : Heapq.entry => is_Some (index inv !! e.2)) (low_stock_heap inv).

(** An inventory stocked by [add_product] alone. *)
Definition stock_all (prods : list Product) (inv : Inventory) : Inventory :=
  fold_left (fun i prod => snd (add_product prod i)) prods inv.

(** A sequence of reservations, all accepted. *)
Fixpoint reserve_all (rs : list (Z * Z)) (st : BillingSystem) : option BillingSystem :=
  match rs with
  | [] => Some st
  | (pid, qty) :: rs' =>
      match add_to_cart pid qty st with
      | (Return (Added _ _ _), st1) => reserve_all rs' st1
      | _ => None
      end
  end.

(** A state without its heap: what a sale reads and writes. *)
Definition books (st : BillingSystem)
  : list Z * gmap Z Product * PyDict.t * list action * string * float * float :=
  (chain (inventory st), index (inventory st), cart st, undo_stack st,
   customer_name st, subtotal st, discount st).

(** The line of the bill for one cart entry. *)
Definition bill_line_for (prod : Product) (qty : Z) : bill_line :=
  mkLine (PyStr.prefix 20 (name prod)) qty (price prod)
         (Float64.mul (price prod) (to_float qty)).

(** A handler that ran to its end, without an exception. *)
Definition returned (e : event) (st : BillingSystem) : Prop :=
  match e with
  | EvAddToCart customer scan => exists r, fst (on_add_to_cart customer scan st) = Return r
  | EvUndo => exists r, fst (on_undo st) = Return r
  | EvCheckout now => exists r, fst (on_checkout now st) = Return r
  | EvClearCart => exists r, fst (on_clear_cart st) = Return r
  | EvAddProduct _ | EvShowLowStock => True
  end.

(** The sessions in which every handler ran to its end. *)
Inductive quiet_session : BillingSystem -> Prop :=
| quiet_start : quiet_session initial
| quiet_event e st : quiet_session st -> returned e st -> quiet_session (handle e st).

(** The steps of the core that a handler makes. *)
Definition stocks_valid (o : op) : Prop :=
  match o with
  | OpAddProduct prod =>
      name prod <> EmptyString /\ 0 <= quantity prod /\
      Float64.ltb (price prod) Float64.zero = false
  | OpUpdateQuantity _ _ => False
  | _ => True
  end.

(** A product is entered in the form with the price [nan], which [float]
    parses and [price < 0] lets through, and one unit of it is scanned. *)
Definition unpriced_form : option (Z * string * float * Z) :=
  Some (1, "Rice"%string, S754_nan, 100).

Definition unpriced : BillingSystem :=
  handle (EvAddToCart "Ada" (Some (1, 1))) (handle (EvAddProduct unpriced_form) initial).
(** * Properties *)

(** ** Floating point *)

Section float_facts.

Lemma SFcompare_antisym x y c :
  SFcompare x y = Some c -> SFcompare y x = Some (CompOpp c).
Proof.
  destruct x as [sx|sx| |sx mx ex], y as [sy|sy| |sy my ey]; simpl;
    try discriminate;
    try (destruct sx); try (destruct sy); simpl;
    try (intros [= <-]; reflexivity).
  - intros [= <-]. rewrite (Z.compare_antisym ex ey).
    destruct (ex ?= ey); simpl; try reflexivity.
    do 2 f_equal. symmetry. apply (Pos.compare_cont_antisym mx my Eq).
  - intros [= <-]. rewrite (Z.compare_antisym ex ey).
    destruct (ex ?= ey); simpl; try reflexivity.
    f_equal. symmetry. apply (Pos.compare_cont_antisym mx my Eq).
Qed.

(** [x <= y] excludes [x > y]. *)
Lemma leb_not_gtb x y : Float64.leb x y = true -> Float64.gtb x y = false.
Proof.
  unfold Float64.leb, Float64.gtb, SFleb, SFltb.
  destruct (SFcompare x y) as [c|] eqn:E; [|discriminate].
  rewrite (SFcompare_antisym _ _ _ E). now destruct c.
Qed.

(** [x > y] excludes [x <= y]. *)
Lemma gtb_not_leb x y : Float64.gtb x y = true -> Float64.leb x y = false.
Proof.
  intros H. destruct (Float64.leb x y) eqn:E; [|reflexivity].
  apply leb_not_gtb in E. congruence.
Qed.

(** Below or at a positive value is not above one of a larger exponent. *)
Lemma leb_not_gtb_above s m1 e1 m2 e2 :
  e1 < e2 ->
  SFleb s (S754_finite false m1 e1) = true ->
  SFltb (S754_finite false m2 e2) s = false.
Proof.
  intros He. unfold SFleb, SFltb.
  destruct s as [sg|sg| |sg m e]; cbn [SFcompare];
    try reflexivity; try discriminate.
  - now destruct sg.
  - destruct sg; [reflexivity|].
    destruct (Z.compare_spec e e1); destruct (Z.compare_spec e2 e);
      try reflexivity; try discriminate; lia.
Qed.

(** Below or at 200 is not above 500. *)
Lemma leb_200_not_gtb_500 s :
  Float64.leb s Float64.lit_200 = true -> Float64.gtb s Float64.lit_500 = false.
Proof. apply leb_not_gtb_above. reflexivity. Qed.

(** Two values that are numbers compare. *)
Lemma SFcompare_total x y :
  Float64.is_nan x = false -> Float64.is_nan y = false ->
  exists c, SFcompare x y = Some c.
Proof. destruct x, y; simpl; try discriminate; eauto. Qed.

(** Between numbers, [x <= y] is the negation of [x > y]. *)
Lemma leb_negb_gtb x y :
  Float64.is_nan x = false -> Float64.is_nan y = false ->
  Float64.leb x y = negb (Float64.gtb x y).
Proof.
  intros Hx Hy. destruct (SFcompare_total x y Hx Hy) as [c E].
  unfold Float64.leb, Float64.gtb, SFleb, SFltb.
  rewrite E, (SFcompare_antisym _ _ _ E). now destruct c.
Qed.

(** What is not a number is neither above nor at or below anything. *)
Lemma nan_not_gtb x y : Float64.is_nan x = true -> Float64.gtb x y = false.
Proof. destruct x; try discriminate. intros _. now destruct y. Qed.

Lemma nan_not_leb x y : Float64.is_nan x = true -> Float64.leb x y = false.
Proof. destruct x; try discriminate. intros _. now destruct y. Qed.

Example lit_500_is_500 : to_float 500 = Float64.lit_500.
Proof. reflexivity. Qed.

Example lit_200_is_200 : to_float 200 = Float64.lit_200.
Proof. reflexivity. Qed.

(** [0.10] and [0.05] denote the binary64 values [m * 2^e] nearest to
    1/10 and 1/20: their distance to them is under half a unit of the
    last place. *)
Example lit_0_10_is_nearest :
  match Float64.lit_0_10 with
  | S754_finite false m e =>
      e = -56 /\ 2 ^ 52 <= Z.pos m < 2 ^ 53 /\ 2 * Z.abs (10 * Z.pos m - 2 ^ 56) < 10
  | _ => False
  end.
Proof. simpl. lia. Qed.

Example lit_0_05_is_nearest :
  match Float64.lit_0_05 with
  | S754_finite false m e =>
      e = -57 /\ 2 ^ 52 <= Z.pos m < 2 ^ 53 /\ 2 * Z.abs (20 * Z.pos m - 2 ^ 57) < 20
  | _ => False
  end.
Proof. simpl. lia. Qed.

(** The first positive [int] that does not convert, and the one before
    it, which rounds to the largest finite value. *)
Example of_int_refused : Float64.of_int (2 ^ 1024 - 2 ^ 970) = None.
Proof. reflexivity. Qed.

Example of_int_largest :
  Float64.of_int (2 ^ 1024 - 2 ^ 970 - 1) = Some (S754_finite false 9007199254740991 971).
Proof. reflexivity. Qed.

Lemma of_int_to_float n f : Float64.of_int n = Some f -> to_float n = f.
Proof.
  unfold Float64.of_int, to_float.
  destruct (binary_normalize _ _ n 0 false); congruence.
Qed.

End float_facts.

(** ** The dictionary *)

Section dict_facts.

Implicit Types (k v : Z) (d : PyDict.t).

Lemma get_set_eq k v d : PyDict.get k (PyDict.set k v d) = Some v.
Proof.
  induction d as [|[k' v'] d IH]; simpl.
  - now rewrite Z.eqb_refl.
  - destruct (k' =? k) eqn:E; simpl; [now rewrite Z.eqb_refl | now rewrite E].
Qed.

Lemma get_set_ne k k' v d : k <> k' -> PyDict.get k' (PyDict.set k v d) = PyDict.get k' d.
Proof.
  intros Hne. induction d as [|[k0 v0] d IH]; simpl.
  - now rewrite (proj2 (Z.eqb_neq k k')).
  - destruct (k0 =? k) eqn:E; simpl.
    + apply Z.eqb_eq in E. subst k0. now rewrite (proj2 (Z.eqb_neq k k')).
    + now rewrite IH.
Qed.

Lemma get_pop_eq k d : PyDict.get k (PyDict.pop k d) = None.
Proof.
  induction d as [|[k' v'] d IH]; simpl; [reflexivity|].
  destruct (k' =? k) eqn:E; simpl; [assumption | now rewrite E].
Qed.

Lemma get_pop_ne k k' d : k <> k' -> PyDict.get k' (PyDict.pop k d) = PyDict.get k' d.
Proof.
  intros Hne. induction d as [|[k0 v0] d IH]; simpl; [reflexivity|].
  destruct (k0 =? k) eqn:E; simpl.
  - apply Z.eqb_eq in E. subst k0. now rewrite (proj2 (Z.eqb_neq k k')).
  - now rewrite IH.
Qed.

Lemma pop_absent k d : PyDict.get k d = None -> PyDict.pop k d = d.
Proof.
  induction d as [|[k' v'] d IH]; simpl; [reflexivity|].
  destruct (k' =? k); [discriminate|]. intros H. now rewrite IH.
Qed.

Lemma pop_set_absent k v d : PyDict.get k d = None -> PyDict.pop k (PyDict.set k v d) = d.
Proof.
  induction d as [|[k' v'] d IH]; simpl.
  - now rewrite Z.eqb_refl.
  - destruct (k' =? k) eqn:E; [discriminate|]. simpl. rewrite E.
    intros H. now rewrite IH.
Qed.

Lemma set_set k v v' d : PyDict.set k v (PyDict.set k v' d) = PyDict.set k v d.
Proof.
  induction d as [|[k0 v0] d IH]; simpl.
  - now rewrite Z.eqb_refl.
  - destruct (k0 =? k) eqn:E; simpl; [now rewrite Z.eqb_refl | now rewrite E, IH].
Qed.

Lemma set_same k v d : PyDict.get k d = Some v -> PyDict.set k v d = d.
Proof.
  induction d as [|[k0 v0] d IH]; simpl; [discriminate|].
  destruct (k0 =? k) eqn:E.
  - apply Z.eqb_eq in E. now intros [= ->]; subst.
  - intros H. now rewrite IH.
Qed.

Lemma get_Some_elem k v d : PyDict.get k d = Some v -> (k, v) ∈ d.
Proof.
  induction d as [|[k0 v0] d IH]; simpl; [discriminate|].
  destruct (k0 =? k) eqn:E.
  - apply Z.eqb_eq in E. intros [= ->]. subst. apply list_elem_of_here.
  - intros H. apply list_elem_of_further. auto.
Qed.

Lemma get_None_keys k d : PyDict.get k d = None <-> k ∉ PyDict.keys d.
Proof.
  unfold PyDict.keys. induction d as [|[k0 v0] d IH]; simpl.
  - split; [intros _; apply not_elem_of_nil | reflexivity].
  - rewrite not_elem_of_cons. destruct (k0 =? k) eqn:E.
    + apply Z.eqb_eq in E. split; [discriminate | intros [? _]; congruence].
    + apply Z.eqb_neq in E. rewrite IH. split; [intros ?; split; congruence | tauto].
Qed.

Lemma elem_set k v d e : e ∈ PyDict.set k v d -> e = (k, v) \/ e ∈ d.
Proof.
  induction d as [|[k0 v0] d IH]; simpl.
  - intros ->%list_elem_of_singleton. now left.
  - destruct (k0 =? k).
    + intros [->|?]%elem_of_cons; [now left | right; now apply list_elem_of_further].
    + intros [->|?]%elem_of_cons.
      * right. apply list_elem_of_here.
      * destruct IH as [?|?]; auto. right. now apply list_elem_of_further.
Qed.

Lemma elem_pop k d e : e ∈ PyDict.pop k d -> e ∈ d.
Proof.
  induction d as [|[k0 v0] d IH]; simpl; [auto|].
  destruct (k0 =? k).
  - intros ?. apply list_elem_of_further. auto.
  - intros [->|?]%elem_of_cons; [apply list_elem_of_here | apply list_elem_of_further; auto].
Qed.

End dict_facts.

(** ** The inventory *)

Section inventory_facts.

Implicit Types (inv : Inventory) (pid q : Z).

Lemma with_quantity_same (p : Product) : with_quantity p (quantity p) = p.
Proof. now destruct p. Qed.

Lemma with_quantity_twice (p : Product) q q' :
  with_quantity (with_quantity p q) q' = with_quantity p q'.
Proof. reflexivity. Qed.

(** [prod.quantity = q] followed by [update_quantity pid q], for a product
    of the index. *)
Lemma change_quantity inv pid q prod :
  index inv !! pid = Some prod ->
  update_quantity pid q (assign_quantity pid q inv)
  = mkInventory (chain inv) (<[pid := with_quantity prod q]> (index inv))
                ((q, pid) :: low_stock_heap inv).
Proof.
  intros Hp. unfold update_quantity, assign_quantity. simpl.
  rewrite lookup_alter_eq, Hp. simpl. f_equal.
  now rewrite !(alter_alt_Some _ _ _ _ Hp), alter_insert_eq.
Qed.

Lemma update_quantity_index inv pid q pid' :
  index (update_quantity pid q inv) !! pid'
  = if decide (pid = pid') then (fun p => with_quantity p q) <$> index inv !! pid'
    else index inv !! pid'.
Proof.
  unfold update_quantity. destruct (index inv !! pid) eqn:Hp; simpl.
  - rewrite lookup_alter. destruct (decide (pid = pid')) as [<-|]; reflexivity.
  - destruct (decide (pid = pid')) as [<-|]; [now rewrite Hp | reflexivity].
Qed.

End inventory_facts.

(** ** Runs *)

Lemma reachable_run_all os st : reachable st -> reachable (run_all os st).
Proof.
  revert st. induction os as [|o os IH]; intros st H; [exact H|].
  apply IH. now apply reachable_run.
Qed.

(** ** Totals *)

Section totals.

(** While every quantity converts, the loop of [compute_totals] runs to its
    end and adds up the lines in the order of the cart. *)
Lemma sum_lines_converts inv items acc :
  Forall (fun e : Z * Z => is_Some (index inv !! e.1)) items ->
  cart_converts items ->
  sum_lines inv items acc
  = (true,
     fold_left (fun a e => Float64.add a (Float64.mul (price_of inv e.1) (to_float e.2)))
               items acc).
Proof.
  intros Hk Hc. revert acc.
  induction items as [|[pid qty] items IH]; intros acc; simpl; [reflexivity|].
  inversion_clear Hk as [|? ? [prod Hp] Hk']. inversion_clear Hc as [|? ? [fq Hq] Hc'].
  simpl in Hp, Hq. unfold price_of, find in *. rewrite Hp, Hq.
  rewrite (of_int_to_float _ _ Hq). now apply IH.
Qed.

(** ... and so does the loop that lays out the item lines. *)
Lemma item_lines_converts inv items :
  cart_converts items -> is_Some (item_lines inv items).
Proof.
  induction items as [|[pid qty] items IH]; intros Hc; simpl; [eauto|].
  inversion_clear Hc as [|? ? [fq Hq] Hc']. simpl in Hq.
  destruct (IH Hc') as [ls Hls]. rewrite Hls, Hq.
  destruct (find pid inv); eauto.
Qed.

Lemma slab_obeys_rule s : slab_rule s (slab s).
Proof.
  unfold slab_rule, slab. split; [|split; [|split]].
  - now intros ->.
  - intros H2 H5. apply leb_not_gtb in H5. now rewrite H5, H2.
  - intros H2. rewrite (leb_200_not_gtb_500 _ H2).
    now rewrite (leb_not_gtb _ _ H2).
  - intros Hn. now rewrite !(nan_not_gtb _ _ Hn).
Qed.

(** Of every subtotal exactly one of the four conditions holds. *)
Lemma slab_cases_exactly_one s : exactly_one (slab_cases s).
Proof.
  unfold exactly_one, slab_cases.
  destruct (Float64.is_nan s) eqn:Hn.
  - rewrite !(nan_not_gtb _ _ Hn), !(nan_not_leb _ _ Hn). reflexivity.
  - rewrite (leb_negb_gtb s Float64.lit_500 Hn eq_refl).
    rewrite (leb_negb_gtb s Float64.lit_200 Hn eq_refl).
    destruct (Float64.gtb s Float64.lit_200) eqn:H2;
      destruct (Float64.gtb s Float64.lit_500) eqn:H5; try reflexivity.
    exfalso.
    assert (Float64.leb s Float64.lit_200 = true) as H
      by (now rewrite (leb_negb_gtb s Float64.lit_200 Hn eq_refl), H2).
    apply leb_200_not_gtb_500 in H. congruence.
Qed.

(** At most one slab applies. *)
Lemma slab_conditions_exclusive s :
  (Float64.gtb s Float64.lit_500 = true -> Float64.leb s Float64.lit_500 = false) /\
  (Float64.gtb s Float64.lit_500 = true -> Float64.leb s Float64.lit_200 = false) /\
  (Float64.gtb s Float64.lit_200 = true -> Float64.leb s Float64.lit_200 = false).
Proof.
  repeat split.
  - apply gtb_not_leb.
  - intros H. destruct (Float64.leb s Float64.lit_200) eqn:E; [|reflexivity].
    apply leb_200_not_gtb_500 in E. congruence.
  - apply gtb_not_leb.
Qed.

Lemma compute_totals_converts st :
  cart_known st -> cart_converts (cart st) ->
  compute_totals st
  = (Return tt,
     mkBilling (inventory st) (cart st) (undo_stack st) (customer_name st)
               (sum_of_lines (inventory st) (cart st))
               (slab (sum_of_lines (inventory st) (cart st)))).
Proof.
  intros Hk Hc. unfold compute_totals.
  now rewrite (sum_lines_converts _ _ _ Hk Hc).
Qed.

(** C3, with its conditions on the cart. For every state whose cart names
    products of the inventory and holds quantities that convert to
    [float], [compute_totals] returns; it sets the subtotal to the sum, in the order
    of the cart, of [price(id) * qty] over the cart entries and the discount
    to the one slab that the subtotal selects: 10% of it above 500, 5% of it
    above 200 and up to 500, nothing up to 200, and nothing either for a
    subtotal that is not a number, which compares with no threshold.
    Exactly one of these four cases holds of every subtotal, so that the
    discount is determined. The total of the bill is the subtotal minus
    the discount. *)
Theorem compute_totals_sum_and_slab st :
  cart_known st -> cart_converts (cart st) -> totals_computed st.
Proof.
  intros Hk Hc. eexists. split; [apply (compute_totals_converts _ Hk Hc)|]. simpl.
  split; [reflexivity|]. split; [apply slab_obeys_rule|].
  split; [apply slab_cases_exactly_one|].
  intros now. unfold checkout_summary.
  rewrite (compute_totals_converts _ Hk Hc). simpl.
  destruct (item_lines_converts (inventory st) (cart st) Hc) as [ls ->].
  eexists. split; [reflexivity|]. simpl. auto.
Qed.

Lemma compute_totals_sum_and_slab_witness :
  totals_computed scenario_reserved /\
  exists st',
    compute_totals unpriced = (Return tt, st') /\
    Float64.is_nan (subtotal st') = true /\ discount st' = Float64.zero.
Proof.
  split.
  - apply (compute_totals_sum_and_slab scenario_reserved).
    + unfold cart_known. compute_done.
    + unfold cart_converts. compute_done.
  - destruct (compute_totals_sum_and_slab unpriced)
      as (st' & H & Hs & (_ & _ & _ & Hn) & _).
    + unfold cart_known. compute_done.
    + unfold cart_converts. compute_done.
    + exists st'. split; [exact H|].
      assert (Float64.is_nan (subtotal st') = true) as E
        by (rewrite Hs; vm_compute; reflexivity).
      split; [exact E | exact (Hn E)].
Defined.

(** C3 does not hold of every state. In one that two calls reach, with
    2^1024 units in the cart, [prod.price * qty] raises [OverflowError] and
    [compute_totals] does not return. *)
Lemma compute_totals_oversized :
  reachable oversized /\ cart_known oversized /\ ~ totals_computed oversized.
Proof.
  split; [|split].
  - apply reachable_run_all, reachable_initial.
  - repeat constructor. vm_compute. eauto.
  - intros (st' & H & _).
    assert (fst (compute_totals oversized) = Raise OverflowError) as E
      by (vm_compute; reflexivity).
    rewrite H in E. discriminate.
Qed.

End totals.

(** ** The scenario *)

Section scenario.

Example scenario_first_reservation :
  add_to_cart 1 10 scenario_stocked
  = (Return (Added "Rice" 10 (to_float 500)), scenario_reserved)
  /\ (quantity <$> find 1 (inventory scenario_reserved)) = Some 90
  /\ cart scenario_reserved = [(1, 10)].
Proof. vm_compute. auto. Qed.

Example scenario_refused :
  add_to_cart 1 200 scenario_reserved = (Return NotEnoughStock, scenario_reserved).
Proof. vm_compute. reflexivity. Qed.



(** The rest of the scenario: one more unit brings the subtotal to 550.00,
    the discount to 55.00 and the total to 495.00; checkout empties the cart
    and leaves 89 units in stock; there is nothing to undo after it. *)
Example scenario_totals_at_550 :
  exists b st',
    on_checkout "2026-01-01 00:00:00" scenario_reserved_more = (Return (CheckedOut b), st') /\
    bill_subtotal b = to_float 550 /\
    bill_discount b = to_float 55 /\
    bill_total b = to_float 495 /\
    cart st' = [] /\
    (quantity <$> find 1 (inventory st')) = Some 89 /\
    fst (undo_last st') = Return NothingToUndo.
Proof. do 2 eexists. vm_compute. repeat split. Qed.

End scenario.

(** ** Reservation and undo *)

Section reservation.

Implicit Types (st : BillingSystem) (pid qty : Z).

(** The state that [add_to_cart] reaches once its three checks have
    passed, whether it then returns or raises. *)
Lemma add_to_cart_accepted pid qty st prod :
  find pid (inventory st) = Some prod -> 0 < qty -> qty <= quantity prod ->
  snd (add_to_cart pid qty st)
  = mkBilling
      (mkInventory (chain (inventory st))
                   (<[pid := with_quantity prod (quantity prod - qty)]> (index (inventory st)))
                   ((quantity prod - qty, pid) :: low_stock_heap (inventory st)))
      (PyDict.set pid (PyDict.get_default pid 0 (cart st) + qty) (cart st))
      (("add"%string, pid, qty) :: undo_stack st)
      (customer_name st) (subtotal st) (discount st)
  /\ fst (add_to_cart pid qty st)
     = match Float64.of_int qty with
       | Some fq => Return (Added (name prod) qty (Float64.mul (price prod) fq))
       | None => Raise OverflowError
       end.
Proof.
  intros Hp H0 Hq. unfold add_to_cart. rewrite Hp.
  rewrite (proj2 (Z.leb_gt qty 0)) by lia.
  rewrite (proj2 (Z.ltb_ge (quantity prod) qty)) by lia.
  rewrite (change_quantity _ _ _ _ Hp).
  destruct (Float64.of_int qty); auto.
Qed.

(** A call that returns [Added] has passed the three checks. *)
Lemma add_to_cart_Added pid qty st nm q lt st' :
  add_to_cart pid qty st = (Return (Added nm q lt), st') ->
  exists prod, find pid (inventory st) = Some prod /\ 0 < qty /\ qty <= quantity prod
               /\ q = qty /\ nm = name prod.
Proof.
  unfold add_to_cart. destruct (find pid (inventory st)) as [prod|]; [|discriminate].
  destruct (Z.leb_spec qty 0); [discriminate|].
  destruct (Z.ltb_spec (quantity prod) qty); [discriminate|].
  destruct (Float64.of_int qty); [|discriminate].
  intros [= <- <- _ _]. exists prod. auto with lia.
Qed.

(** C4. [add_to_cart pid qty] checks in this order: an unknown [pid] is
    refused as not found, a quantity [qty <= 0] as not positive, a quantity
    above the product's current one as lacking stock; every one of these
    refusals leaves the whole state (inventory, cart, undo log) as it
    was. *)
Theorem add_to_cart_refusals pid qty st :
  (find pid (inventory st) = None ->
   add_to_cart pid qty st = (Return ProductNotFound, st)) /\
  (forall prod, find pid (inventory st) = Some prod -> qty <= 0 ->
   add_to_cart pid qty st = (Return QuantityNotPositive, st)) /\
  (forall prod, find pid (inventory st) = Some prod -> 0 < qty -> quantity prod < qty ->
   add_to_cart pid qty st = (Return NotEnoughStock, st)) /\
  (forall r st', add_to_cart pid qty st = (Return r, st') ->
   r = ProductNotFound \/ r = QuantityNotPositive \/ r = NotEnoughStock ->
   st' = st).
Proof.
  unfold add_to_cart. repeat split.
  - now intros ->.
  - intros prod -> Hq. now rewrite (proj2 (Z.leb_le qty 0)).
  - intros prod -> H0 Hq. rewrite (proj2 (Z.leb_gt qty 0)) by lia.
    now rewrite (proj2 (Z.ltb_lt (quantity prod) qty)).
  - intros r st'. destruct (find pid (inventory st)) as [prod|]; [|congruence].
    destruct (qty <=? 0); [congruence|].
    destruct (quantity prod <? qty); [congruence|].
    destruct (Float64.of_int qty); [|discriminate].
    intros [= <- _] [?|[?|?]]; discriminate.
Qed.

Lemma add_to_cart_refusals_witness :
  add_to_cart 7 1 scenario_reserved = (Return ProductNotFound, scenario_reserved) /\
  add_to_cart 1 0 scenario_reserved = (Return QuantityNotPositive, scenario_reserved) /\
  add_to_cart 1 200 scenario_reserved = (Return NotEnoughStock, scenario_reserved).
Proof.
  split; [|split].
  - apply (proj1 (add_to_cart_refusals 7 1 scenario_reserved)). reflexivity.
  - apply (proj1 (proj2 (add_to_cart_refusals 1 0 scenario_reserved))
             (with_quantity rice 90)); [reflexivity | lia].
  - apply (proj1 (proj2 (proj2 (add_to_cart_refusals 1 200 scenario_reserved)))
             (with_quantity rice 90)); [reflexivity | lia | simpl; lia].
Defined.

(** C5. A call [add_to_cart pid qty] that returns its [Added] message has,
    in one step: lowered the stock of the product by [qty], raised the
    cart's entry for [pid] by [qty] from its former value (0 when there was
    none), and pushed [("add", pid, qty)] on the undo stack. Nothing else
    has changed: the other products, the other cart entries, the chain, the
    customer name and the stored totals are as before. *)
Theorem add_to_cart_success pid qty st nm q lt st' :
  add_to_cart pid qty st = (Return (Added nm q lt), st') ->
  exists prod,
    find pid (inventory st) = Some prod /\
    find pid (inventory st')
    = Some (mkProduct (prod_id prod) (name prod) (price prod) (quantity prod - qty)) /\
    PyDict.get pid (cart st') = Some (PyDict.get_default pid 0 (cart st) + qty) /\
    undo_stack st' = ("add"%string, pid, qty) :: undo_stack st /\
    (forall pid', pid' <> pid ->
       find pid' (inventory st') = find pid' (inventory st) /\
       PyDict.get pid' (cart st') = PyDict.get pid' (cart st)) /\
    chain (inventory st') = chain (inventory st) /\
    (customer_name st', subtotal st', discount st')
    = (customer_name st, subtotal st, discount st).
Proof.
  intros H. destruct (add_to_cart_Added _ _ _ _ _ _ _ H) as (prod & Hp & H0 & Hq & _ & _).
  destruct (add_to_cart_accepted _ _ _ _ Hp H0 Hq) as [Hs _].
  rewrite H in Hs. simpl in Hs. subst st'. exists prod. simpl. unfold find. simpl.
  repeat split; try assumption.
  - exact (lookup_insert_eq _ _ _).
  - apply get_set_eq.
  - now apply lookup_insert_ne.
  - now apply get_set_ne.
Qed.

Lemma add_to_cart_success_witness :
  find 1 (inventory scenario_reserved) = Some (mkProduct 1 "Rice" lit_50 90) /\
  find 1 (inventory scenario_reserved_more) = Some (mkProduct 1 "Rice" lit_50 89) /\
  PyDict.get 1 (cart scenario_reserved) = Some 10 /\
  PyDict.get 1 (cart scenario_reserved_more) = Some 11 /\
  undo_stack scenario_reserved_more = [("add"%string, 1, 1); ("add"%string, 1, 10)].
Proof.
  destruct (add_to_cart_success 1 1 scenario_reserved "Rice" 1 lit_50 scenario_reserved_more)
    as (prod & H1 & H2 & H3 & H4 & _).
  - vm_compute. reflexivity.
  - assert (prod = mkProduct 1 "Rice" lit_50 90) as Hprod
      by (vm_compute in H1; injection H1 as <-; reflexivity).
    rewrite Hprod in H1, H2.
    split; [exact H1|]. split; [exact H2|]. split; [reflexivity|].
    split; [exact H3 | exact H4].
Defined.

(** [undo_last] right after an accepted [add_to_cart]. *)
Lemma undo_after_add pid qty st prod :
  (forall c, PyDict.get pid (cart st) = Some c -> 0 < c) ->
  find pid (inventory st) = Some prod -> 0 < qty -> qty <= quantity prod ->
  undo_last (snd (add_to_cart pid qty st))
  = (Return (Undone qty (name prod)),
     mkBilling
       (mkInventory (chain (inventory st)) (index (inventory st))
                    ((quantity prod, pid) :: (quantity prod - qty, pid)
                       :: low_stock_heap (inventory st)))
       (cart st) (undo_stack st) (customer_name st) (subtotal st) (discount st)).
Proof.
  intros Hpos Hp H0 Hq.
  destruct (add_to_cart_accepted _ _ _ _ Hp H0 Hq) as [-> _].
  unfold undo_last. cbn [undo_stack inventory cart customer_name subtotal discount].
  change (String.eqb "add" "add") with true. cbv iota.
  unfold find at 1. cbn [index]. rewrite lookup_insert_eq.
  erewrite change_quantity by (cbn [index]; apply lookup_insert_eq).
  cbn [chain index low_stock_heap quantity with_quantity name].
  rewrite get_set_eq, insert_insert_eq.
  replace (quantity prod - qty + qty) with (quantity prod) by lia.
  replace (PyDict.get_default pid 0 (cart st) + qty - qty)
    with (PyDict.get_default pid 0 (cart st)) by lia.
  rewrite set_set.
  replace (with_quantity (with_quantity prod (quantity prod - qty)) (quantity prod))
    with prod by (now destruct prod).
  rewrite (insert_id _ _ _ Hp).
  unfold PyDict.get_default.
  destruct (PyDict.get pid (cart st)) as [c|] eqn:Hc.
  - specialize (Hpos c eq_refl).
    rewrite (proj2 (Z.leb_gt c 0)) by lia. now rewrite (set_same _ _ _ Hc).
  - change (0 <=? 0) with true. cbv iota. now rewrite (pop_set_absent _ _ _ Hc).
Qed.

(** C6. After a call [add_to_cart pid qty] that returned [Added], an
    immediate [undo_last] returns the quantity: the records of the index
    (hence the stock of the product), the cart, entry for entry and in its
    order, and the undo stack are what they were before the reservation; an
    entry that the reservation created is removed, not kept at zero. The
    cart is taken as the data model has it, with a positive quantity in
    every entry. On an empty undo stack [undo_last] answers that there is
    nothing to undo and changes nothing. *)
Theorem undo_restores_reservation st :
  (forall pid qty nm q lt st1,
     cart_positive (cart st) ->
     add_to_cart pid qty st = (Return (Added nm q lt), st1) ->
     exists st2,
       undo_last st1 = (Return (Undone qty nm), st2) /\
       index (inventory st2) = index (inventory st) /\
       chain (inventory st2) = chain (inventory st) /\
       cart st2 = cart st /\
       undo_stack st2 = undo_stack st /\
       length (undo_stack st2) = length (undo_stack st) /\
       (customer_name st2, subtotal st2, discount st2)
       = (customer_name st, subtotal st, discount st)) /\
  (undo_stack st = [] -> undo_last st = (Return NothingToUndo, st)).
Proof.
  split.
  - intros pid qty nm q lt st1 Hpos H.
    destruct (add_to_cart_Added _ _ _ _ _ _ _ H) as (prod & Hp & H0 & Hq & _ & ->).
    assert (forall c, PyDict.get pid (cart st) = Some c -> 0 < c) as Hc.
    { intros c Hc%get_Some_elem. unfold cart_positive in Hpos.
      rewrite Forall_forall in Hpos. apply (Hpos _ Hc). }
    pose proof (undo_after_add _ _ _ _ Hc Hp H0 Hq) as Hu.
    rewrite H in Hu. simpl in Hu. eexists. split; [exact Hu|]. simpl. auto 10.
  - unfold undo_last. now intros ->.
Qed.

Lemma undo_restores_reservation_witness :
  (exists st2,
     undo_last scenario_reserved = (Return (Undone 10 "Rice"), st2) /\
     index (inventory st2) = index (inventory scenario_stocked) /\
     cart st2 = cart scenario_stocked /\
     undo_stack st2 = undo_stack scenario_stocked) /\
  undo_last scenario_stocked = (Return NothingToUndo, scenario_stocked).
Proof.
  split.
  - destruct (proj1 (undo_restores_reservation scenario_stocked)
                1 10 "Rice"%string 10 (to_float 500) scenario_reserved)
      as (st2 & H1 & H2 & _ & H3 & H4 & _).
    + unfold cart_positive. compute_done.
    + vm_compute. reflexivity.
    + exists st2. auto.
  - apply (proj2 (undo_restores_reservation scenario_stocked)). reflexivity.
Defined.

End reservation.

(** ** The heap *)

Section heap_facts.

Implicit Types (a b c m : Heapq.entry) (h : list Heapq.entry).

Lemma entry_eqb_eq a b : Heapq.entry_eqb a b = true <-> a = b.
Proof.
  destruct a as [qa ia], b as [qb ib]. unfold Heapq.entry_eqb. simpl.
  rewrite andb_true_iff, !Z.eqb_eq. split; [intros [-> ->]; reflexivity | now intros [= -> ->]].
Qed.

Lemma entry_leb_spec a b :
  Heapq.entry_leb a b = true <-> a.1 < b.1 \/ (a.1 = b.1 /\ a.2 <= b.2).
Proof.
  unfold Heapq.entry_leb.
  now rewrite orb_true_iff, andb_true_iff, Z.ltb_lt, Z.eqb_eq, Z.leb_le.
Qed.

Lemma entry_leb_refl a : Heapq.entry_leb a a = true.
Proof. apply entry_leb_spec. lia. Qed.

Lemma entry_leb_trans a b c :
  Heapq.entry_leb a b = true -> Heapq.entry_leb b c = true -> Heapq.entry_leb a c = true.
Proof. rewrite !entry_leb_spec. lia. Qed.

Lemma entry_leb_total a b : Heapq.entry_leb a b = false -> Heapq.entry_leb b a = true.
Proof.
  intros H. apply entry_leb_spec.
  destruct (Heapq.entry_leb a b) eqn:E; [discriminate|].
  assert (~ (a.1 < b.1 \/ (a.1 = b.1 /\ a.2 <= b.2))) by (rewrite <- entry_leb_spec; congruence).
  lia.
Qed.

Lemma entry_leb_antisym a b :
  Heapq.entry_leb a b = true -> Heapq.entry_leb b a = true -> a = b.
Proof.
  rewrite !entry_leb_spec. destruct a, b. simpl. intros. f_equal; lia.
Qed.

Lemma least_elem m h : Heapq.least m h ∈ m :: h.
Proof.
  revert m. induction h as [|x h IH]; intros m; simpl.
  - apply list_elem_of_here.
  - specialize (IH (if Heapq.entry_leb m x then m else x)).
    apply elem_of_cons in IH as [->|IH].
    + destruct (Heapq.entry_leb m x); [apply list_elem_of_here|].
      apply list_elem_of_further, list_elem_of_here.
    + now do 2 apply list_elem_of_further.
Qed.

Lemma least_below_start m h : Heapq.entry_leb (Heapq.least m h) m = true.
Proof.
  revert m. induction h as [|x h IH]; intros m; simpl; [apply entry_leb_refl|].
  destruct (Heapq.entry_leb m x) eqn:E; [apply IH|].
  eapply entry_leb_trans; [apply IH | now apply entry_leb_total].
Qed.

Lemma least_below m h y : y ∈ m :: h -> Heapq.entry_leb (Heapq.least m h) y = true.
Proof.
  revert m. induction h as [|x h IH]; intros m; simpl.
  - intros ->%list_elem_of_singleton. apply entry_leb_refl.
  - intros [Hy|[Hy|Hy]%elem_of_cons]%elem_of_cons.
    + subst y. eapply entry_leb_trans; [apply least_below_start|].
      destruct (Heapq.entry_leb m x) eqn:E; [apply entry_leb_refl | now apply entry_leb_total].
    + subst y. eapply entry_leb_trans; [apply least_below_start|].
      destruct (Heapq.entry_leb m x) eqn:E; [assumption | apply entry_leb_refl].
    + apply IH. now apply list_elem_of_further.
Qed.

Lemma remove_one_perm m h : m ∈ h -> h ≡ₚ m :: Heapq.remove_one m h.
Proof.
  induction h as [|x h IH]; simpl.
  - intros H. now apply elem_of_nil in H.
  - destruct (Heapq.entry_eqb x m) eqn:E.
    + apply entry_eqb_eq in E. now subst.
    + intros [Hm|H]%elem_of_cons.
      * subst x. rewrite (proj2 (entry_eqb_eq m m) eq_refl) in E. discriminate.
      * rewrite (IH H) at 1. apply Permutation_swap.
Qed.

(** The contract of [heappop]: the entry it returns is one of the heap and
    is least; the other entries stay. *)
Lemma heappop_Some h m h' :
  Heapq.heappop h = Some (m, h') ->
  h ≡ₚ m :: h' /\ (forall y, y ∈ h -> Heapq.entry_leb m y = true).
Proof.
  destruct h as [|x h]; [discriminate|]. unfold Heapq.heappop.
  intros [= <- <-]. split.
  - apply remove_one_perm, least_elem.
  - intros y. apply least_below.
Qed.

Lemma heappop_None h : Heapq.heappop h = None <-> h = [].
Proof. destruct h; simpl; split; congruence. Qed.

(** What [heappop] returns depends on the entries only, not on their
    arrangement. *)
Lemma heappop_perm h1 h2 m h1' :
  h1 ≡ₚ h2 -> Heapq.heappop h1 = Some (m, h1') ->
  exists h2', Heapq.heappop h2 = Some (m, h2') /\ h1' ≡ₚ h2'.
Proof.
  intros Hp H1. destruct (Heapq.heappop h2) as [[m2 h2']|] eqn:H2.
  - apply heappop_Some in H1 as [P1 L1]. apply heappop_Some in H2 as [P2 L2].
    assert (m = m2) as <-.
    { apply entry_leb_antisym.
      - apply L1. rewrite Hp, P2. apply list_elem_of_here.
      - apply L2. rewrite <- Hp, P1. apply list_elem_of_here. }
    exists h2'. split; [reflexivity|].
    apply (Permutation_cons_inv (a := m)). now rewrite <- P1, <- P2.
  - apply heappop_None in H2. subst h2. apply Permutation_nil_r in Hp. subst h1.
    discriminate.
Qed.

Lemma push_back_perm popped h : fold_left Heapq.heappush popped h ≡ₚ popped ++ h.
Proof.
  revert h. induction popped as [|x popped IH]; intros h; simpl; [reflexivity|].
  rewrite IH. unfold Heapq.heappush. symmetry. apply Permutation_middle.
Qed.

End heap_facts.

(** ** The low-stock query *)

Section low_stock.

Implicit Types (h : list Heapq.entry) (idx : gmap Z Product) (k seen : Z).

Lemma heappop_length h m h' :
  Heapq.heappop h = Some (m, h') -> length h = S (length h').
Proof. intros [H _]%heappop_Some. now rewrite H. Qed.

Lemma loop_stops_on_empty fuel k seen idx :
  low_stock_loop fuel k seen idx [] = ([], [], []).
Proof. now destruct fuel. Qed.

(** The loop ends by its own test: any fuel from the length of the heap on
    gives the same result. *)
Lemma low_stock_loop_fuel n1 n2 k seen idx h :
  (length h <= n1)%nat -> (length h <= n2)%nat ->
  low_stock_loop n1 k seen idx h = low_stock_loop n2 k seen idx h.
Proof.
  revert n2 seen h. induction n1 as [|n1 IH]; intros n2 seen h H1 H2.
  - destruct h; [|simpl in H1; lia]. now rewrite !loop_stops_on_empty.
  - destruct n2 as [|n2].
    { destruct h; [|simpl in H2; lia]. now rewrite !loop_stops_on_empty. }
    simpl. destruct (negb (bool_decide (h = [])) && (seen <? k)); [|reflexivity].
    destruct (Heapq.heappop h) as [[[qty pid] h']|] eqn:Hpop; [|reflexivity].
    apply heappop_length in Hpop.
    destruct (idx !! pid) as [prod|]; [destruct (quantity prod =? qty)|];
      rewrite (IH n2) by lia; reflexivity.
Qed.

(** The entries popped and the entries left are the entries of the heap. *)
Lemma low_stock_loop_entries fuel k seen idx h :
  (low_stock_loop fuel k seen idx h).2 ++ (low_stock_loop fuel k seen idx h).1.1 ≡ₚ h.
Proof.
  revert seen h. induction fuel as [|fuel IH]; intros seen h; simpl; [reflexivity|].
  destruct (negb (bool_decide (h = [])) && (seen <? k)); [|reflexivity].
  destruct (Heapq.heappop h) as [[[qty pid] h']|] eqn:Hpop; [|reflexivity].
  apply heappop_Some in Hpop as [Hp _].
  destruct (idx !! pid) as [prod|]; [destruct (quantity prod =? qty)|].
  - specialize (IH (seen + 1) h').
    destruct (low_stock_loop fuel k (seen + 1) idx h') as [[? ?] ?]. simpl in *.
    now rewrite IH.
  - specialize (IH seen h').
    destruct (low_stock_loop fuel k seen idx h') as [[? ?] ?]. simpl in *.
    now rewrite IH.
  - specialize (IH seen h').
    destruct (low_stock_loop fuel k seen idx h') as [[? ?] ?]. simpl in *.
    now rewrite IH.
Qed.

(** The answer of the loop depends on the entries of the heap only, not on
    their arrangement. *)
Lemma low_stock_loop_perm fuel k seen idx h1 h2 :
  h1 ≡ₚ h2 ->
  (low_stock_loop fuel k seen idx h1).1.2 = (low_stock_loop fuel k seen idx h2).1.2 /\
  (low_stock_loop fuel k seen idx h1).2 = (low_stock_loop fuel k seen idx h2).2 /\
  (low_stock_loop fuel k seen idx h1).1.1 ≡ₚ (low_stock_loop fuel k seen idx h2).1.1.
Proof.
  revert seen h1 h2. induction fuel as [|fuel IH]; intros seen h1 h2 Hp; simpl; [auto|].
  assert (bool_decide (h1 = []) = bool_decide (h2 = [])) as ->.
  { apply bool_decide_ext. split; intros ->.
    - now apply Permutation_nil_l in Hp.
    - now apply Permutation_nil_r in Hp. }
  destruct (negb (bool_decide (h2 = [])) && (seen <? k)); [|auto].
  destruct (Heapq.heappop h1) as [[[qty pid] h1']|] eqn:Hpop1.
  - destruct (heappop_perm _ _ _ _ Hp Hpop1) as (h2' & -> & Hp').
    destruct (idx !! pid) as [prod|]; [destruct (quantity prod =? qty)|].
    + destruct (IH (seen + 1) _ _ Hp') as (E1 & E2 & E3).
      destruct (low_stock_loop fuel k (seen + 1) idx h1') as [[? ?] ?].
      destruct (low_stock_loop fuel k (seen + 1) idx h2') as [[? ?] ?].
      simpl in *. now subst.
    + destruct (IH seen _ _ Hp') as (E1 & E2 & E3).
      destruct (low_stock_loop fuel k seen idx h1') as [[? ?] ?].
      destruct (low_stock_loop fuel k seen idx h2') as [[? ?] ?].
      simpl in *. now subst.
    + destruct (IH seen _ _ Hp') as (E1 & E2 & E3).
      destruct (low_stock_loop fuel k seen idx h1') as [[? ?] ?].
      destruct (low_stock_loop fuel k seen idx h2') as [[? ?] ?].
      simpl in *. now subst.
  - apply heappop_None in Hpop1. subst h1. apply Permutation_nil_l in Hp. now subst h2.
Qed.

(** A query leaves the inventory as it was, the heap up to the arrangement
    of its entries. *)
Lemma k_lowest_stock_frame k inv :
  index (snd (k_lowest_stock k inv)) = index inv /\
  chain (snd (k_lowest_stock k inv)) = chain inv /\
  low_stock_heap (snd (k_lowest_stock k inv)) ≡ₚ low_stock_heap inv.
Proof.
  unfold k_lowest_stock.
  pose proof (low_stock_loop_entries (length (low_stock_heap inv)) k 0 (index inv)
                (low_stock_heap inv)) as H.
  destruct (low_stock_loop _ k 0 (index inv) (low_stock_heap inv)) as [[h results] popped].
  simpl in *. now rewrite push_back_perm.
Qed.

(** The same query again gives the same answer. *)
Lemma k_lowest_stock_again k inv :
  fst (k_lowest_stock k (snd (k_lowest_stock k inv))) = fst (k_lowest_stock k inv).
Proof.
  destruct (k_lowest_stock_frame k inv) as (Hi & _ & Hh).
  unfold k_lowest_stock at 1 3.
  rewrite Hi, (Permutation_length Hh).
  destruct (low_stock_loop_perm (length (low_stock_heap inv)) k 0 (index inv) _ _ Hh)
    as (E & _ & _).
  destruct (low_stock_loop _ k 0 (index inv) (low_stock_heap (k_lowest_stock k inv).2))
    as [[? ?] ?].
  destruct (low_stock_loop _ k 0 (index inv) (low_stock_heap inv)) as [[? ?] ?].
  exact E.
Qed.

End low_stock.

(** ** Steps of the inventory *)

Section inventory_steps.

Implicit Types (inv : Inventory) (pid q : Z).

Lemma inventory_step_refl inv : inventory_step inv inv.
Proof. repeat split; auto. intros ?; auto. Qed.

Lemma inventory_step_trans inv1 inv2 inv3 :
  inventory_step inv1 inv2 -> inventory_step inv2 inv3 -> inventory_step inv1 inv3.
Proof.
  intros (G1 & H1 & K1) (G2 & H2 & K2). repeat split; auto.
  intros pid ?. auto.
Qed.

Lemma add_product_step prod inv : inventory_step inv (snd (add_product prod inv)).
Proof.
  unfold add_product. destruct (index inv !! prod_id prod) eqn:Hp; simpl.
  { apply inventory_step_refl. }
  split; [|split].
  - intros pid Hs. simpl. rewrite lookup_insert_is_Some. 
    destruct (decide (prod_id prod = pid)); auto.
  - unfold heap_covers. simpl. intros Hc. apply map_Forall_insert; [assumption|]. split.
    + apply list_elem_of_here.
    + eapply map_Forall_impl; [exact Hc|]. intros ? ? ?. now apply list_elem_of_further.
  - unfold index_keyed. simpl. intros Hk. apply map_Forall_insert; auto.
Qed.

(** The assignment and [update_quantity] together, for a product of the
    index. *)
Lemma change_quantity_step inv pid q prod :
  index inv !! pid = Some prod ->
  inventory_step inv (update_quantity pid q (assign_quantity pid q inv)).
Proof.
  intros Hp. rewrite (change_quantity _ _ _ _ Hp). split; [|split].
  - intros pid' Hs. simpl. rewrite lookup_insert_is_Some.
    destruct (decide (pid = pid')); auto.
  - unfold heap_covers. simpl. rewrite !map_Forall_lookup. intros Hc pid' p'.
    rewrite lookup_insert_Some. intros [[<- <-]|[Hne Hp']].
    + apply list_elem_of_here.
    + apply list_elem_of_further. eauto.
  - unfold index_keyed. simpl. rewrite !map_Forall_lookup. intros Hk pid' p'.
    rewrite lookup_insert_Some. intros [[<- <-]|[Hne Hp']]; simpl; eauto.
Qed.

Lemma update_quantity_step inv pid q : inventory_step inv (update_quantity pid q inv).
Proof.
  destruct (index inv !! pid) as [prod|] eqn:Hp.
  - assert (update_quantity pid q inv = update_quantity pid q (assign_quantity pid q inv))
      as ->; [|now apply (change_quantity_step _ _ _ prod)].
    rewrite (change_quantity _ _ _ _ Hp). unfold update_quantity. rewrite Hp.
    unfold assign_quantity. simpl. now rewrite (alter_alt_Some _ _ _ _ Hp).
  - unfold update_quantity. rewrite Hp. apply inventory_step_refl.
Qed.

Lemma k_lowest_stock_step k inv : inventory_step inv (snd (k_lowest_stock k inv)).
Proof.
  destruct (k_lowest_stock_frame k inv) as (Hi & _ & Hh). split; [|split].
  - intros pid. now rewrite Hi.
  - unfold heap_covers. rewrite Hi. intros Hc.
    eapply map_Forall_impl; [exact Hc|]. intros ? ? ?. now rewrite Hh.
  - unfold index_keyed. now rewrite Hi.
Qed.

Lemma restore_stock_step items inv : inventory_step inv (restore_stock items inv).
Proof.
  revert inv. induction items as [|[pid qty] items IH]; intros inv; simpl.
  - apply inventory_step_refl.
  - destruct (find pid inv) as [prod|] eqn:Hp; [|apply IH].
    eapply inventory_step_trans; [|apply IH].
    now apply (change_quantity_step _ _ _ prod).
Qed.

End inventory_steps.

(** ** Steps of the billing system *)

Section billing_steps.

Implicit Types (st : BillingSystem) (o : op).

Lemma compute_totals_frame st :
  inventory (snd (compute_totals st)) = inventory st /\
  cart (snd (compute_totals st)) = cart st /\
  undo_stack (snd (compute_totals st)) = undo_stack st /\
  customer_name (snd (compute_totals st)) = customer_name st.
Proof.
  unfold compute_totals.
  destruct (sum_lines (inventory st) (cart st) Float64.zero) as [[|] s]; simpl; auto.
Qed.

Lemma checkout_summary_frame now st :
  snd (checkout_summary now st) = snd (compute_totals st).
Proof.
  unfold checkout_summary. destruct (compute_totals st) as [[[]|e] st1]; simpl; [|reflexivity].
  now destruct (item_lines (inventory st1) (cart st1)).
Qed.

(** Checkout either refuses, or stops at an exception of the totals, or
    clears. *)
Lemma on_checkout_cases now st :
  snd (on_checkout now st) = st \/
  snd (on_checkout now st) = snd (compute_totals st) \/
  (inventory (snd (on_checkout now st)) = inventory st /\
   cart (snd (on_checkout now st)) = [] /\
   undo_stack (snd (on_checkout now st)) = []).
Proof.
  unfold on_checkout. destruct (cart st) eqn:Hc; [now left|].
  pose proof (checkout_summary_frame now st) as Hf.
  destruct (checkout_summary now st) as [[b|e] st1]; simpl in Hf; subst st1;
    [|right; now left].
  right; right.
  destruct (compute_totals_frame st) as (Hi & _).
  destruct (compute_totals_frame (clear (snd (compute_totals st)))) as (Hi' & Hc' & Hu' & _).
  destruct (compute_totals (clear (snd (compute_totals st)))) as [[[]|e] st2];
    simpl in *; now rewrite Hi', Hc', Hu'.
Qed.

Lemma on_clear_cart_frame st :
  inventory (snd (on_clear_cart st)) = restore_stock (cart st) (inventory st) /\
  cart (snd (on_clear_cart st)) = [] /\
  undo_stack (snd (on_clear_cart st)) = [] /\
  customer_name (snd (on_clear_cart st)) = EmptyString.
Proof.
  unfold on_clear_cart.
  destruct (compute_totals_frame
              (clear (set_inventory (restore_stock (cart st) (inventory st)) st)))
    as (-> & -> & -> & ->).
  auto.
Qed.

(** The cases of [add_to_cart]: a refusal with the state as it was, or the
    three updates. *)
Lemma add_to_cart_cases pid qty st :
  snd (add_to_cart pid qty st) = st \/
  exists prod, find pid (inventory st) = Some prod /\ 0 < qty /\ qty <= quantity prod.
Proof.
  unfold add_to_cart. destruct (find pid (inventory st)) as [prod|]; [|now left].
  destruct (Z.leb_spec qty 0); [now left|].
  destruct (Z.ltb_spec (quantity prod) qty); [now left|].
  right. exists prod. auto.
Qed.

Lemma run_inventory_step o st : inventory_step (inventory st) (inventory (run o st)).
Proof.
  destruct o; unfold run.
  - apply add_product_step.
  - apply update_quantity_step.
  - apply k_lowest_stock_step.
  - apply inventory_step_refl.
  - destruct (add_to_cart_cases pid qty st) as [->|(prod & Hp & H0 & Hq)];
      [apply inventory_step_refl|].
    destruct (add_to_cart_accepted _ _ _ _ Hp H0 Hq) as [-> _]. simpl.
    rewrite <- (change_quantity _ _ _ _ Hp). now apply (change_quantity_step _ _ _ prod).
  - unfold undo_last. destruct (undo_stack st) as [|[[act pid] qty] rest];
      [apply inventory_step_refl|].
    destruct (String.eqb act "add"); [|apply inventory_step_refl].
    destruct (find pid (inventory st)) as [prod|] eqn:Hp; [|apply inventory_step_refl].
    destruct (PyDict.get pid (cart st)); simpl;
      now apply (change_quantity_step _ _ _ prod).
  - destruct (compute_totals_frame st) as (-> & _). apply inventory_step_refl.
  - rewrite checkout_summary_frame.
    destruct (compute_totals_frame st) as (-> & _). apply inventory_step_refl.
  - apply inventory_step_refl.
  - destruct (on_checkout_cases now st) as [->|[->|(-> & _)]];
      try apply inventory_step_refl.
    destruct (compute_totals_frame st) as (-> & _). apply inventory_step_refl.
  - destruct (on_clear_cart_frame st) as (-> & _). apply restore_stock_step.
Qed.

Lemma run_ledger_step o st : ledger_step st (run o st).
Proof.
  destruct o; unfold run; try (now apply ledger_same).
  - destruct (add_to_cart_cases pid qty st) as [->|(prod & Hp & H0 & Hq)];
      [now apply ledger_same|].
    destruct (add_to_cart_accepted _ _ _ _ Hp H0 Hq) as [-> _].
    apply (ledger_add _ _ pid qty); simpl; eauto.
  - unfold undo_last. destruct (undo_stack st) as [|[[act pid] qty] rest] eqn:Hu;
      [now apply ledger_same|].
    destruct (String.eqb act "add") eqn:Ha.
    + apply String.eqb_eq in Ha. subst act.
      destruct (find pid (inventory st)) as [prod|] eqn:Hp.
      * destruct (PyDict.get pid (cart st)) as [c|] eqn:Hc.
        -- apply (ledger_undone _ _ pid qty c); simpl; auto.
        -- apply (ledger_dropped _ _ "add"%string pid qty); simpl; auto.
      * apply (ledger_dropped _ _ "add"%string pid qty); simpl; auto.
    + apply (ledger_dropped _ _ act pid qty); simpl; auto.
      left. intros ->. discriminate.
  - destruct (compute_totals_frame st) as (_ & ? & ? & _). now apply ledger_same.
  - rewrite checkout_summary_frame.
    destruct (compute_totals_frame st) as (_ & ? & ? & _). now apply ledger_same.
  - now apply ledger_cleared.
  - destruct (on_checkout_cases now st) as [->|[->|(_ & ? & ?)]].
    + now apply ledger_same.
    + destruct (compute_totals_frame st) as (_ & ? & ? & _). now apply ledger_same.
    + now apply ledger_cleared.
  - destruct (on_clear_cart_frame st) as (_ & ? & ? & _). now apply ledger_cleared.
Qed.

End billing_steps.

(** ** Invariants of a run *)

Section invariants.

Implicit Types (st : BillingSystem) (d : PyDict.t) (k v pid : Z).

Lemma Forall_set (P : Z * Z -> Prop) k v d :
  P (k, v) -> Forall P d -> Forall P (PyDict.set k v d).
Proof.
  intros Hkv Hd. rewrite Forall_forall in *. intros e [->|He]%elem_set; auto.
Qed.

Lemma elem_pop_ne k d e : e ∈ PyDict.pop k d -> e ∈ d /\ e.1 <> k.
Proof.
  induction d as [|[k0 v0] d IH]; simpl.
  - intros H. now apply elem_of_nil in H.
  - destruct (k0 =? k) eqn:E.
    + intros [? ?]%IH. split; [now apply list_elem_of_further | assumption].
    + apply Z.eqb_neq in E. intros [->|[? ?]%IH]%elem_of_cons.
      * split; [apply list_elem_of_here | assumption].
      * split; [now apply list_elem_of_further | assumption].
Qed.

Lemma Forall_pop_set (P : Z * Z -> Prop) k v d :
  Forall P d -> Forall P (PyDict.pop k (PyDict.set k v d)).
Proof.
  intros Hd. rewrite Forall_forall in *.
  intros e [[->|He]%elem_set Hne]%elem_pop_ne; [now simpl in Hne | auto].
Qed.

Lemma wf_set k v d : PyDict.wf d -> PyDict.wf (PyDict.set k v d).
Proof.
  unfold PyDict.wf, PyDict.keys. induction d as [|[k0 v0] d IH]; simpl.
  - intros _. apply NoDup_singleton.
  - rewrite NoDup_cons. intros [Hk0 Hd]. destruct (k0 =? k) eqn:E; simpl.
    + apply Z.eqb_eq in E. subst k0. now apply NoDup_cons.
    + apply Z.eqb_neq in E. apply NoDup_cons. split; [|auto].
      apply get_None_keys. rewrite get_set_ne by congruence. now apply get_None_keys.
Qed.

Lemma wf_pop k d : PyDict.wf d -> PyDict.wf (PyDict.pop k d).
Proof.
  unfold PyDict.wf, PyDict.keys. induction d as [|[k0 v0] d IH]; simpl; [auto|].
  rewrite NoDup_cons. intros [Hk0 Hd]. destruct (k0 =? k) eqn:E; simpl; [auto|].
  apply Z.eqb_neq in E. apply NoDup_cons. split; [|auto].
  apply get_None_keys. rewrite get_pop_ne by congruence. now apply get_None_keys.
Qed.

Lemma recorded_nonneg pid (u : list action) :
  Forall (fun a : action => 0 < a.2) u -> 0 <= recorded pid u.
Proof.
  induction 1 as [|a u Ha _ IH]; simpl; [lia|].
  destruct (a.1.2 =? pid); lia.
Qed.

Lemma undo_known_positive st : undo_known st -> Forall (fun a : action => 0 < a.2) (undo_stack st).
Proof. intros H. eapply Forall_impl; [exact H|]. simpl. tauto. Qed.

Lemma undo_known_step st st' :
  index_grows (inventory st) (inventory st') -> ledger_step st st' ->
  undo_known st -> undo_known st'.
Proof.
  intros Hg Hl Hu. unfold undo_known in *.
  assert (Forall (fun a : action =>
            a.1.1 = "add"%string /\ is_Some (index (inventory st') !! a.1.2) /\ 0 < a.2)
            (undo_stack st)) as Hu'.
  { eapply Forall_impl; [exact Hu|]. intros a (? & ? & ?). auto. }
  destruct Hl as [_ ->| _ ->|pid qty Hp H0 _ ->|act pid qty E _ _|pid qty c E _ _];
    try assumption.
  - constructor.
  - constructor; [|assumption]. simpl. auto.
  - rewrite E in Hu'. now inversion Hu'.
  - rewrite E in Hu'. now inversion Hu'.
Qed.

Lemma cart_known_step st st' :
  index_grows (inventory st) (inventory st') -> ledger_step st st' ->
  cart_known st -> cart_known st'.
Proof.
  intros Hg Hl Hc. unfold cart_known in *.
  assert (Forall (fun e : Z * Z => is_Some (index (inventory st') !! e.1)) (cart st)) as Hc'.
  { eapply Forall_impl; [exact Hc|]. intros e ?. auto. }
  destruct Hl as [->| ->|pid qty Hp H0 -> _|act pid qty _ -> _|pid qty c _ Hget ->];
    try assumption.
  - constructor.
  - apply Forall_set; [simpl; auto | assumption].
  - destruct (c - qty <=? 0); [now apply Forall_pop_set|].
    apply Forall_set; [|assumption].
    apply get_Some_elem in Hget. rewrite Forall_forall in Hc'. apply (Hc' _ Hget).
Qed.

Lemma cart_positive_step st st' :
  ledger_step st st' -> cart_positive (cart st) -> cart_positive (cart st').
Proof.
  intros Hl Hc. unfold cart_positive in *.
  destruct Hl as [->| ->|pid qty Hp H0 -> _|act pid qty _ -> _|pid qty c _ Hget ->];
    try assumption.
  - constructor.
  - apply Forall_set; [|assumption]. simpl. unfold PyDict.get_default.
    destruct (PyDict.get pid (cart st)) as [c|] eqn:Hget; [|lia].
    apply get_Some_elem in Hget. rewrite Forall_forall in Hc.
    specialize (Hc _ Hget). simpl in Hc. lia.
  - destruct (Z.leb_spec (c - qty) 0); [now apply Forall_pop_set|].
    apply Forall_set; [simpl; lia | assumption].
Qed.

Lemma wf_step st st' :
  ledger_step st st' -> PyDict.wf (cart st) -> PyDict.wf (cart st').
Proof.
  intros Hl Hc.
  destruct Hl as [->| ->|pid qty Hp H0 -> _|act pid qty _ -> _|pid qty c _ Hget ->];
    try assumption.
  - apply NoDup_nil_2.
  - now apply wf_set.
  - destruct (c - qty <=? 0); [apply wf_pop|]; now apply wf_set.
Qed.

Lemma get_default_set k v d pid :
  PyDict.get_default pid 0 (PyDict.set k v d)
  = if k =? pid then v else PyDict.get_default pid 0 d.
Proof.
  unfold PyDict.get_default. destruct (Z.eqb_spec k pid) as [->|Hne].
  - now rewrite get_set_eq.
  - now rewrite get_set_ne.
Qed.

Lemma get_default_pop k d pid :
  PyDict.get_default pid 0 (PyDict.pop k d)
  = if k =? pid then 0 else PyDict.get_default pid 0 d.
Proof.
  unfold PyDict.get_default. destruct (Z.eqb_spec k pid) as [->|Hne].
  - now rewrite get_pop_eq.
  - now rewrite get_pop_ne.
Qed.

Lemma balanced_step st st' :
  ledger_step st st' -> undo_known st -> balanced st -> balanced st'.
Proof.
  intros Hl Hu Hb pid'. unfold balanced in Hb.
  pose proof (undo_known_positive _ Hu) as Hpos.
  destruct Hl as [-> ->| -> ->|pid qty Hp H0 -> ->|act pid qty E Hc Hor|pid qty c E Hget ->].
  - apply Hb.
  - reflexivity.
  - rewrite get_default_set. simpl. rewrite <- Hb.
    destruct (Z.eqb_spec pid pid') as [<-|Hne]; lia.
  - exfalso. unfold undo_known in Hu. rewrite E in Hu, Hpos.
    inversion_clear Hu as [|? ? (Ha & Hs & Hq) _]. inversion_clear Hpos as [|? ? _ Hpos'].
    simpl in *. destruct Hor as [?|[Hn|Hn]]; [congruence | |].
    + rewrite Hn in Hs. now destruct Hs.
    + specialize (Hb pid). unfold PyDict.get_default in Hb. rewrite Hn, E in Hb.
      simpl in Hb. rewrite Z.eqb_refl in Hb.
      pose proof (recorded_nonneg pid _ Hpos'). lia.
  - rewrite E in Hpos. inversion_clear Hpos as [|? ? _ Hpos'].
    pose proof (recorded_nonneg pid _ Hpos') as Hn.
    pose proof (Hb pid) as Hbp. unfold PyDict.get_default in Hbp at 1.
    rewrite Hget, E in Hbp. simpl in Hbp. rewrite Z.eqb_refl in Hbp.
    specialize (Hb pid'). rewrite E in Hb. simpl in Hb.
    destruct (Z.leb_spec (c - qty) 0).
    + rewrite get_default_pop, get_default_set.
      destruct (Z.eqb_spec pid pid') as [Heq|Hne]; [rewrite <- Heq in *|]; lia.
    + rewrite get_default_set.
      destruct (Z.eqb_spec pid pid') as [Heq|Hne]; [rewrite <- Heq in *|]; lia.
Qed.

Lemma consistent_initial : consistent initial.
Proof.
  repeat split; try constructor.
  - apply map_Forall_empty.
  - apply map_Forall_empty.
Qed.

Lemma consistent_run o st : consistent st -> consistent (run o st).
Proof.
  intros (Hu & Hk & Hp & Hw & Hb & Hh & Hi).
  destruct (run_inventory_step o st) as (Hg & Hh' & Hi').
  pose proof (run_ledger_step o st) as Hl.
  repeat split.
  - now apply (undo_known_step st).
  - now apply (cart_known_step st).
  - now apply (cart_positive_step st).
  - now apply (wf_step st).
  - now apply (balanced_step st).
  - auto.
  - auto.
Qed.

(** Every state of a run is consistent. *)
Lemma reachable_consistent st : reachable st -> consistent st.
Proof.
  induction 1 as [|o st _ IH]; [apply consistent_initial | now apply consistent_run].
Qed.

End invariants.

(** ** The heap invariant *)

Section heap_invariant.

(** C9. The heap holds, for every product of the index, an entry with the
    product's current quantity. The invariant holds of the empty inventory
    and every operation keeps it: [add_product], [update_quantity],
    [add_to_cart], [undo_last], the clearing of the cart,
    [k_lowest_stock], and with them every step of a run. A query pushes
    back every entry it popped: it leaves the index as it was and the heap
    with the same entries, so the heap does not shrink, and the same query
    again returns the same products. *)
Theorem heap_covers_invariant st :
  heap_covers (inventory initial) /\
  (heap_covers (inventory st) ->
     (forall prod, heap_covers (snd (add_product prod (inventory st)))) /\
     (forall pid q, heap_covers (update_quantity pid q (inventory st))) /\
     (forall pid qty, heap_covers (inventory (snd (add_to_cart pid qty st)))) /\
     heap_covers (inventory (snd (undo_last st))) /\
     heap_covers (inventory (snd (on_clear_cart st))) /\
     (forall k, heap_covers (snd (k_lowest_stock k (inventory st)))) /\
     (forall o, heap_covers (inventory (run o st)))) /\
  (forall k,
     index (snd (k_lowest_stock k (inventory st))) = index (inventory st) /\
     low_stock_heap (snd (k_lowest_stock k (inventory st))) ≡ₚ low_stock_heap (inventory st) /\
     length (low_stock_heap (snd (k_lowest_stock k (inventory st))))
     = length (low_stock_heap (inventory st)) /\
     fst (k_lowest_stock k (snd (k_lowest_stock k (inventory st))))
     = fst (k_lowest_stock k (inventory st))).
Proof.
  split; [apply map_Forall_empty|]. split.
  - intros Hc.
    assert (forall o, heap_covers (inventory (run o st))) as Hrun.
    { intros o. now apply (run_inventory_step o st). }
    repeat split.
    + intros prod. apply (Hrun (OpAddProduct prod)).
    + intros pid q. apply (Hrun (OpUpdateQuantity pid q)).
    + intros pid qty. apply (Hrun (OpAddToCart pid qty)).
    + apply (Hrun OpUndoLast).
    + apply (Hrun OpClearCart).
    + intros k. apply (Hrun (OpLowStock k)).
    + exact Hrun.
  - intros k. destruct (k_lowest_stock_frame k (inventory st)) as (Hi & _ & Hh).
    repeat split; [assumption | assumption | now rewrite Hh | apply k_lowest_stock_again].
Qed.

Lemma heap_covers_invariant_witness :
  heap_covers (inventory (snd (undo_last scenario_reserved))) /\
  heap_covers (inventory (snd (on_clear_cart scenario_reserved))) /\
  heap_covers (snd (k_lowest_stock 5 (inventory scenario_reserved))).
Proof.
  destruct (proj1 (proj2 (heap_covers_invariant scenario_reserved)))
    as (_ & _ & _ & H1 & H2 & H3 & _).
  - unfold heap_covers. compute_done.
  - split; [exact H1 | split; [exact H2 | exact (H3 5)]].
Defined.

End heap_invariant.

(** ** The undo stack *)

Section undo_stack_facts.

(** C10. Products are never removed from the index, and in every state of
    a run every action on the undo stack is an ["add"] that names a product
    of the index; so [undo_last] never reports a missing product, nor an
    unknown action. *)
Theorem undo_actions_name_products st :
  reachable st ->
  (forall o pid, is_Some (index (inventory st) !! pid) ->
                 is_Some (index (inventory (run o st)) !! pid)) /\
  Forall (fun a : action =>
            a.1.1 = "add"%string /\ is_Some (index (inventory st) !! a.1.2))
         (undo_stack st) /\
  fst (undo_last st) <> Return ProductMissing /\
  fst (undo_last st) <> Return UnknownAction.
Proof.
  intros Hr. destruct (reachable_consistent _ Hr) as (Hu & _).
  split; [|split].
  - intros o. apply (run_inventory_step o st).
  - eapply Forall_impl; [exact Hu|]. simpl. tauto.
  - unfold undo_known in Hu. unfold undo_last.
    destruct (undo_stack st) as [|[[act pid] qty] rest]; [split; discriminate|].
    inversion_clear Hu as [|? ? (Ha & [prod Hp] & _) _]. simpl in Ha, Hp. subst act.
    change (String.eqb "add" "add") with true. cbv iota.
    unfold find. rewrite Hp.
    destruct (PyDict.get pid (cart st)); split; discriminate.
Qed.

Lemma undo_actions_name_products_witness :
  Forall (fun a : action =>
            a.1.1 = "add"%string /\ is_Some (index (inventory scenario_reserved_more) !! a.1.2))
         (undo_stack scenario_reserved_more) /\
  fst (undo_last scenario_reserved_more) <> Return ProductMissing.
Proof.
  destruct (undo_actions_name_products scenario_reserved_more) as (_ & H1 & H2 & _).
  - do 3 apply reachable_run. apply reachable_initial.
  - split; [exact H1 | exact H2].
Defined.

End undo_stack_facts.

(** ** Checkout *)

Section checkout.

Lemma sum_lines_returns inv items acc :
  cart_converts items -> exists s, sum_lines inv items acc = (true, s).
Proof.
  intros Hc. revert acc. induction items as [|[pid qty] items IH]; intros acc; simpl; [eauto|].
  inversion_clear Hc as [|? ? [fq Hq] Hc']. simpl in Hq. rewrite Hq.
  destruct (find pid inv); auto.
Qed.

Lemma compute_totals_returns st :
  cart_converts (cart st) -> fst (compute_totals st) = Return tt.
Proof.
  intros Hc. unfold compute_totals.
  now destruct (sum_lines_returns (inventory st) (cart st) Float64.zero Hc) as [s ->].
Qed.

(** C7, with its condition on the cart. On a cart without entries checkout
    is refused and nothing changes. On a cart with entries whose quantities all convert to
    [float], checkout recomputes the totals and puts them on the bill, then
    clears the cart, the undo stack and the customer name; the inventory,
    every stock included, is as it was before. *)
Theorem on_checkout_clears now st :
  (cart st = [] -> on_checkout now st = (Return EmptyCart, st)) /\
  (cart st <> [] -> cart_converts (cart st) -> checkout_completes now st).
Proof.
  split.
  - unfold on_checkout. now intros ->.
  - intros Hne Hc. unfold checkout_completes, on_checkout.
    destruct (cart st) as [|e d] eqn:Hcart; [congruence|]. rewrite <- Hcart in *.
    unfold checkout_summary.
    pose proof (compute_totals_returns st Hc) as Hr.
    destruct (compute_totals_frame st) as (Hi & Hca & _ & Hn).
    destruct (compute_totals st) as [r st1]. simpl in *. subst r.
    destruct (item_lines_converts (inventory st1) (cart st1)) as [ls ->];
      [now rewrite Hca|].
    unfold compute_totals, clear. simpl.
    do 2 eexists. split; [reflexivity|]. simpl. auto 10.
Qed.

Lemma on_checkout_clears_witness :
  on_checkout "2026-01-01 10:00:00" initial = (Return EmptyCart, initial) /\
  checkout_completes "2026-01-01 10:00:00" scenario_reserved.
Proof.
  split.
  - apply (proj1 (on_checkout_clears "2026-01-01 10:00:00" initial)). reflexivity.
  - apply (proj2 (on_checkout_clears "2026-01-01 10:00:00" scenario_reserved)).
    + discriminate.
    + unfold cart_converts. compute_done.
Defined.

(** C7 does not hold of every cart with entries. In a state that two calls
    reach the cart has an entry, the totals raise [OverflowError], and checkout stops there with
    the cart and the undo stack as they were. *)
Lemma on_checkout_oversized :
  reachable oversized /\
  cart oversized <> [] /\
  fst (on_checkout "2026-01-01 10:00:00" oversized) = Raise OverflowError /\
  cart (snd (on_checkout "2026-01-01 10:00:00" oversized)) = cart oversized /\
  ~ checkout_as_stated "2026-01-01 10:00:00" oversized.
Proof.
  assert (fst (on_checkout "2026-01-01 10:00:00" oversized) = Raise OverflowError) as E
    by (vm_compute; reflexivity).
  split; [apply reachable_run_all, reachable_initial|].
  split; [discriminate|]. split; [exact E|]. split; [vm_compute; reflexivity|].
  intros [_ H]. destruct H as (b & st' & H & _); [discriminate|].
  rewrite H in E. discriminate.
Qed.

End checkout.

(** ** Clearing the cart *)

Section clear_cart.

Implicit Types (st : BillingSystem) (d : PyDict.t) (pid : Z).

Lemma add_nothing (o : option Product) :
  (fun p => with_quantity p (quantity p + 0)) <$> o = o.
Proof.
  destruct o as [p|]; [|reflexivity]. simpl. f_equal.
  rewrite Z.add_0_r. apply with_quantity_same.
Qed.

(** The loop adds to every product what the entries of the cart reserve of
    it. *)
Lemma restore_stock_index items inv pid :
  index (restore_stock items inv) !! pid
  = (fun p => with_quantity p (quantity p + reserved pid items)) <$> index inv !! pid.
Proof.
  revert inv. induction items as [|[k q] items IH]; intros inv; simpl.
  - symmetry. apply add_nothing.
  - unfold find. destruct (index inv !! k) as [prod|] eqn:Hk.
    + rewrite IH, (change_quantity _ _ _ _ Hk). simpl.
      destruct (Z.eqb_spec k pid) as [->|Hne].
      * rewrite lookup_insert_eq, Hk. simpl. f_equal. unfold with_quantity. simpl.
        f_equal. lia.
      * now rewrite lookup_insert_ne.
    + rewrite IH. destruct (Z.eqb_spec k pid) as [->|Hne]; [now rewrite Hk | reflexivity].
Qed.

Lemma reserved_absent pid d : PyDict.get pid d = None -> reserved pid d = 0.
Proof.
  induction d as [|[k v] d IH]; simpl; [reflexivity|].
  destruct (k =? pid); [discriminate | assumption].
Qed.

(** In a dictionary the entry of a key is all that is reserved of it. *)
Lemma reserved_wf pid d : PyDict.wf d -> reserved pid d = PyDict.get_default pid 0 d.
Proof.
  unfold PyDict.wf, PyDict.keys, PyDict.get_default.
  induction d as [|[k v] d IH]; simpl; [reflexivity|].
  rewrite NoDup_cons. intros [Hk Hd]. destruct (Z.eqb_spec k pid) as [->|Hne]; [|auto].
  rewrite reserved_absent; [lia|]. now apply get_None_keys.
Qed.

Lemma elem_wf_get pid qty d : PyDict.wf d -> (pid, qty) ∈ d -> PyDict.get pid d = Some qty.
Proof.
  unfold PyDict.wf, PyDict.keys. induction d as [|[k v] d IH]; simpl.
  - intros _ H. now apply elem_of_nil in H.
  - rewrite NoDup_cons. intros [Hk Hd] [[= <- <-]|He]%elem_of_cons.
    + now rewrite Z.eqb_refl.
    + destruct (Z.eqb_spec k pid) as [->|Hne]; [|auto].
      exfalso. apply Hk. apply list_elem_of_fmap. now exists (pid, qty).
Qed.

(** With actions on the undo stack and no entry in the cart, the books do
    not balance. *)
Lemma balanced_empty st :
  balanced st -> cart_positive (cart st) -> undo_stack st = [] -> cart st = [].
Proof.
  intros Hb Hp Hu. destruct (cart st) as [|[k v] d] eqn:Hc; [reflexivity|].
  specialize (Hb k). rewrite Hu, Hc in Hb. unfold PyDict.get_default in Hb.
  simpl in Hb. rewrite Z.eqb_refl in Hb.
  inversion_clear Hp as [|? ? Hv _]. simpl in Hv. lia.
Qed.

(** One [undo_last] on a consistent state with an action on the stack. *)
Lemma undo_last_consistent st act pid qty rest :
  consistent st -> undo_stack st = (act, pid, qty) :: rest ->
  exists prod,
    index (inventory st) !! pid = Some prod /\
    undo_stack (snd (undo_last st)) = rest /\
    index (inventory (snd (undo_last st)))
    = <[pid := with_quantity prod (quantity prod + qty)]> (index (inventory st)).
Proof.
  intros (Hu & _) E. unfold undo_known in Hu. rewrite E in Hu.
  inversion_clear Hu as [|? ? (Ha & [prod Hp] & _) _]. simpl in Ha, Hp. subst act.
  exists prod. split; [assumption|]. unfold undo_last. rewrite E.
  change (String.eqb "add" "add") with true. cbv iota.
  unfold find. rewrite Hp, (change_quantity _ _ _ _ Hp).
  destruct (PyDict.get pid (cart st)); simpl; auto.
Qed.

(** Undoing every recorded action adds to every product what the actions
    took of it, and empties the stack and the cart. *)
Lemma undo_times_all n st :
  consistent st -> length (undo_stack st) = n ->
  undo_stack (undo_times n st) = [] /\
  cart (undo_times n st) = [] /\
  forall pid,
    index (inventory (undo_times n st)) !! pid
    = (fun p => with_quantity p (quantity p + recorded pid (undo_stack st)))
        <$> index (inventory st) !! pid.
Proof.
  revert st. induction n as [|n IH]; intros st Hc Hlen; simpl.
  - apply nil_length_inv in Hlen. destruct Hc as (_ & _ & Hp & _ & Hb & _).
    split; [assumption|]. split; [now apply balanced_empty|].
    intros pid. rewrite Hlen. simpl. symmetry. apply add_nothing.
  - destruct (undo_stack st) as [|[[act k] q] rest] eqn:E; [discriminate|].
    destruct (undo_last_consistent _ _ _ _ _ Hc E) as (prod & Hk & Hrest & Hidx).
    destruct (IH (snd (undo_last st))) as (H1 & H2 & H3).
    + apply (consistent_run OpUndoLast _ Hc).
    + rewrite Hrest. simpl in Hlen. lia.
    + split; [assumption|]. split; [assumption|].
      intros pid. rewrite H3, Hrest, Hidx. simpl.
      destruct (Z.eqb_spec k pid) as [->|Hne].
      * rewrite lookup_insert_eq, Hk. simpl. f_equal. unfold with_quantity. simpl.
        f_equal. lia.
      * now rewrite lookup_insert_ne.
Qed.

(** C8. Clearing the cart returns, for every entry [(pid, qty)] of the
    cart, [qty] units to the stock of the product [pid], leaves the products
    without an entry as they were, and then empties the cart and the undo
    stack. In a consistent state, as every state of a run is, the stocks it
    leaves are those that undoing every recorded action leaves. *)
Theorem on_clear_cart_restores st :
  PyDict.wf (cart st) ->
  exists st',
    on_clear_cart st = (Return tt, st') /\
    cart st' = [] /\
    undo_stack st' = [] /\
    (forall pid qty prod,
       (pid, qty) ∈ cart st -> find pid (inventory st) = Some prod ->
       find pid (inventory st')
       = Some (mkProduct (prod_id prod) (name prod) (price prod) (quantity prod + qty))) /\
    (forall pid, pid ∉ PyDict.keys (cart st) ->
       find pid (inventory st') = find pid (inventory st)) /\
    (consistent st ->
       index (inventory (undo_times (length (undo_stack st)) st)) = index (inventory st') /\
       cart (undo_times (length (undo_stack st)) st) = [] /\
       undo_stack (undo_times (length (undo_stack st)) st) = []).
Proof.
  intros Hwf. destruct (on_clear_cart_frame st) as (Hi & Hc & Hu & _).
  exists (snd (on_clear_cart st)). split; [|split; [assumption|split; [assumption|]]].
  - unfold on_clear_cart, compute_totals, clear. reflexivity.
  - unfold find. rewrite Hi. split; [|split].
    + intros pid qty prod He Hp. rewrite restore_stock_index, Hp. simpl.
      rewrite (reserved_wf _ _ Hwf). unfold PyDict.get_default.
      now rewrite (elem_wf_get _ _ _ Hwf He).
    + intros pid Hn. rewrite restore_stock_index.
      rewrite reserved_absent by (now apply get_None_keys). apply add_nothing.
    + intros Hcons. destruct (undo_times_all _ st Hcons eq_refl) as (H1 & H2 & H3).
      split; [|auto]. apply map_eq. intros pid.
      rewrite H3, restore_stock_index, (reserved_wf _ _ Hwf).
      destruct Hcons as (_ & _ & _ & _ & Hb & _). now rewrite (Hb pid).
Qed.

Lemma on_clear_cart_restores_witness :
  find 1 (inventory scenario_reserved_more) = Some (mkProduct 1 "Rice" lit_50 89) /\
  cart scenario_reserved_more = [(1, 11)] /\
  exists st',
    on_clear_cart scenario_reserved_more = (Return tt, st') /\
    cart st' = [] /\
    undo_stack st' = [] /\
    find 1 (inventory st') = Some (mkProduct 1 "Rice" lit_50 100) /\
    index (inventory (undo_times 2 scenario_reserved_more)) = index (inventory st').
Proof.
  split; [reflexivity|]. split; [reflexivity|].
  destruct (on_clear_cart_restores scenario_reserved_more)
    as (st' & H1 & H2 & H3 & H4 & _ & H5).
  - unfold PyDict.wf. compute_done.
  - exists st'. split; [exact H1|]. split; [exact H2|]. split; [exact H3|]. split.
    + apply (H4 1 11 (mkProduct 1 "Rice" lit_50 89)); [compute_done | reflexivity].
    + apply H5. apply reachable_consistent.
      do 3 apply reachable_run. apply reachable_initial.
Defined.

End clear_cart.

(** ** What the low-stock query returns *)

Section low_stock_answer.

Implicit Types (h : list Heapq.entry) (idx : gmap Z Product) (k seen : Z).

Local Ltac loop_stopped := simpl; repeat split; [constructor | constructor | lia].

(** The products that the loop returns are records of the index, each with
    a snapshot of its current quantity in the heap, so none is stale; they
    come in ascending order of (quantity, id), an order that does not
    exclude repetitions; and there are at most [k - seen] of them. *)
Lemma low_stock_loop_sound fuel k seen idx h :
  map_Forall (fun pid p => prod_id p = pid) idx ->
  Forall (fun p => idx !! prod_id p = Some p /\ (quantity p, prod_id p) ∈ h)
         (low_stock_loop fuel k seen idx h).1.2 /\
  StronglySorted
    (fun p1 p2 =>
       Heapq.entry_leb (quantity p1, prod_id p1) (quantity p2, prod_id p2) = true)
    (low_stock_loop fuel k seen idx h).1.2 /\
  Z.of_nat (length (low_stock_loop fuel k seen idx h).1.2) <= Z.max 0 (k - seen).
Proof.
  intros Hkey. revert seen h. induction fuel as [|fuel IH]; intros seen h; simpl.
  { loop_stopped. }
  destruct (negb (bool_decide (h = []))); simpl; [|loop_stopped].
  destruct (Z.ltb_spec seen k); [|loop_stopped].
  destruct (Heapq.heappop h) as [[[qty pid] h']|] eqn:Hpop; [|loop_stopped].
  apply heappop_Some in Hpop as [Hperm Hleast].
  assert (forall e, e ∈ h' -> e ∈ h) as Hsub.
  { intros e He. rewrite Hperm. now apply list_elem_of_further. }
  assert (forall s,
    Forall (fun p => idx !! prod_id p = Some p /\ (quantity p, prod_id p) ∈ h)
           (low_stock_loop fuel k s idx h').1.2) as Hin.
  { intros s. destruct (IH s h') as (H1 & _). eapply Forall_impl; [exact H1|].
    simpl. intros p [? ?]. auto. }
  destruct (idx !! pid) as [prod|] eqn:Hp;
    [destruct (Z.eqb_spec (quantity prod) qty) as [Hq|Hq]|].
  - specialize (Hin (seen + 1)). destruct (IH (seen + 1) h') as (_ & H2 & H3).
    destruct (low_stock_loop fuel k (seen + 1) idx h') as [[h2 results] popped].
    simpl in *. pose proof (map_Forall_lookup_1 _ _ _ _ Hkey Hp) as Hid. simpl in Hid.
    repeat split.
    + constructor; [|assumption]. rewrite Hid, Hq. split; [assumption|].
      rewrite Hperm. apply list_elem_of_here.
    + constructor; [assumption|]. eapply Forall_impl; [exact Hin|].
      simpl. intros p [_ Hh]. rewrite Hid, Hq. now apply Hleast.
    + lia.
  - specialize (Hin seen). destruct (IH seen h') as (_ & H2 & H3).
    destruct (low_stock_loop fuel k seen idx h') as [[h2 results] popped].
    simpl in *. auto.
  - specialize (Hin seen). destruct (IH seen h') as (_ & H2 & H3).
    destruct (low_stock_loop fuel k seen idx h') as [[h2 results] popped].
    simpl in *. auto.
Qed.

(** X4. With every product filed under its own identifier,
    [k_lowest_stock k] returns records that [find] returns at that moment,
    each with a snapshot of its current quantity in the heap (none is
    stale), in ascending order of (quantity, id), repetitions not
    excluded, and never more than [k] of them, none for [k <= 0]. *)
Lemma k_lowest_stock_sound k inv :
  index_keyed inv ->
  Forall (fun p => find (prod_id p) inv = Some p /\
                   (quantity p, prod_id p) ∈ low_stock_heap inv)
         (fst (k_lowest_stock k inv)) /\
  StronglySorted
    (fun p1 p2 =>
       Heapq.entry_leb (quantity p1, prod_id p1) (quantity p2, prod_id p2) = true)
    (fst (k_lowest_stock k inv)) /\
  Z.of_nat (length (fst (k_lowest_stock k inv))) <= Z.max 0 k.
Proof.
  intros Hkey.
  destruct (low_stock_loop_sound (length (low_stock_heap inv)) k 0 (index inv)
              (low_stock_heap inv) Hkey) as (H1 & H2 & H3).
  unfold k_lowest_stock, find.
  destruct (low_stock_loop _ k 0 (index inv) (low_stock_heap inv)) as [[h results] popped].
  simpl in *. rewrite Z.sub_0_r in H3. auto.
Qed.

(** What the loop popped: every popped snapshot that is current put its
    product among the results, every result has its snapshot among the
    popped entries, the popped entries are below the ones that are left,
    and with fewer than [k - seen] results nothing is left. *)
Lemma low_stock_loop_complete fuel k seen idx h :
  map_Forall (fun pid p => prod_id p = pid) idx ->
  (length h <= fuel)%nat ->
  (forall qty pid prod,
     (qty, pid) ∈ (low_stock_loop fuel k seen idx h).2 ->
     idx !! pid = Some prod -> quantity prod = qty ->
     prod ∈ (low_stock_loop fuel k seen idx h).1.2) /\
  (forall p, p ∈ (low_stock_loop fuel k seen idx h).1.2 ->
     (quantity p, prod_id p) ∈ (low_stock_loop fuel k seen idx h).2) /\
  (forall e e', e ∈ (low_stock_loop fuel k seen idx h).2 ->
     e' ∈ (low_stock_loop fuel k seen idx h).1.1 -> Heapq.entry_leb e e' = true) /\
  (seen + Z.of_nat (length (low_stock_loop fuel k seen idx h).1.2) < k ->
   (low_stock_loop fuel k seen idx h).1.1 = []).
Proof.
  intros Hkey. revert seen h. induction fuel as [|fuel IH]; intros seen h Hlen.
  { destruct h; [|simpl in Hlen; lia]. simpl.
    repeat split; auto; intros; exfalso; eapply elem_of_nil; eauto. }
  simpl. destruct (bool_decide_reflect (h = [])) as [->|Hne]; simpl.
  { repeat split; auto; intros; exfalso; eapply elem_of_nil; eauto. }
  destruct (Z.ltb_spec seen k); simpl.
  2:{ repeat split; try lia; intros; exfalso; eapply elem_of_nil; eauto. }
  destruct (Heapq.heappop h) as [[[qty pid] h']|] eqn:Hpop.
  2:{ apply heappop_None in Hpop. contradiction. }
  pose proof (heappop_length _ _ _ Hpop) as Hl.
  apply heappop_Some in Hpop as [Hperm Hleast].
  assert (forall s e', e' ∈ (low_stock_loop fuel k s idx h').1.1 ->
                       Heapq.entry_leb (qty, pid) e' = true) as Hrest.
  { intros s e' He'. apply Hleast. rewrite Hperm. apply list_elem_of_further.
    rewrite <- (low_stock_loop_entries fuel k s idx h').
    apply elem_of_app. now right. }
  destruct (idx !! pid) as [prod|] eqn:Hp;
    [destruct (Z.eqb_spec (quantity prod) qty) as [Hq|Hq]|].
  - specialize (Hrest (seen + 1)).
    destruct (IH (seen + 1) h') as (H1 & H2 & H3 & H4); [lia|].
    destruct (low_stock_loop fuel k (seen + 1) idx h') as [[h2 results] popped].
    simpl in *. pose proof (map_Forall_lookup_1 _ _ _ _ Hkey Hp) as Hid. simpl in Hid.
    repeat split.
    + intros q i p [[= -> ->]|Hin]%elem_of_cons Hi Hqp.
      * rewrite Hp in Hi. injection Hi as <-. apply list_elem_of_here.
      * apply list_elem_of_further. eauto.
    + intros p [->|Hin]%elem_of_cons.
      * rewrite Hid, Hq. apply list_elem_of_here.
      * apply list_elem_of_further. auto.
    + intros e e' [->|Hin]%elem_of_cons He'; auto.
    + intros Hk. apply H4. lia.
  - specialize (Hrest seen).
    destruct (IH seen h') as (H1 & H2 & H3 & H4); [lia|].
    destruct (low_stock_loop fuel k seen idx h') as [[h2 results] popped].
    simpl in *. repeat split; auto.
    + intros q i p [[= -> ->]|Hin]%elem_of_cons Hi Hqp; [|eauto].
      rewrite Hp in Hi. injection Hi as <-. contradiction.
    + intros p Hin. apply list_elem_of_further. auto.
    + intros e e' [->|Hin]%elem_of_cons He'; auto.
  - specialize (Hrest seen).
    destruct (IH seen h') as (H1 & H2 & H3 & H4); [lia|].
    destruct (low_stock_loop fuel k seen idx h') as [[h2 results] popped].
    simpl in *. repeat split; auto.
    + intros q i p [[= -> ->]|Hin]%elem_of_cons Hi Hqp; [|eauto].
      rewrite Hp in Hi. discriminate.
    + intros p Hin. apply list_elem_of_further. auto.
    + intros e e' [->|Hin]%elem_of_cons He'; auto.
Qed.

Lemma k_lowest_stock_sound_witness :
  Forall (fun p => find (prod_id p) (inventory restocked) = Some p)
         (fst (k_lowest_stock 2 (inventory restocked))) /\
  Z.of_nat (length (fst (k_lowest_stock 2 (inventory restocked)))) <= 2.
Proof.
  destruct (k_lowest_stock_sound 2 (inventory restocked)) as (H1 & _ & H2).
  - unfold index_keyed. compute_done.
  - split; [|exact H2]. eapply Forall_impl; [exact H1|]. simpl. tauto.
Defined.

(** X5. With the heap invariant, a product that [k_lowest_stock k] leaves
    out has no less stock, in the order of (quantity, id), than every
    product it returns, and the answer is then full: a query that returns
    fewer than [k] products has returned every product of the index. *)
Lemma k_lowest_stock_lowest k inv pid prod :
  index_keyed inv -> heap_covers inv ->
  find pid inv = Some prod ->
  prod ∉ fst (k_lowest_stock k inv) ->
  Z.of_nat (length (fst (k_lowest_stock k inv))) = Z.max 0 k /\
  Forall (fun r => Heapq.entry_leb (quantity r, prod_id r) (quantity prod, pid) = true)
         (fst (k_lowest_stock k inv)).
Proof.
  intros Hkey Hcov Hp Hnot.
  pose proof (map_Forall_lookup_1 _ _ _ _ Hcov Hp) as Hsnap. simpl in Hsnap.
  destruct (low_stock_loop_complete (length (low_stock_heap inv)) k 0 (index inv)
              (low_stock_heap inv) Hkey (le_n _)) as (H1 & H2 & H3 & H4).
  destruct (low_stock_loop_sound (length (low_stock_heap inv)) k 0 (index inv)
              (low_stock_heap inv) Hkey) as (_ & _ & H5).
  pose proof (low_stock_loop_entries (length (low_stock_heap inv)) k 0 (index inv)
                (low_stock_heap inv)) as Hent.
  unfold k_lowest_stock, find in *.
  destruct (low_stock_loop _ k 0 (index inv) (low_stock_heap inv)) as [[h results] popped].
  simpl in *. rewrite <- Hent in Hsnap. apply elem_of_app in Hsnap as [Hin|Hin].
  { exfalso. apply Hnot. eapply H1; eauto. }
  split.
  - destruct (Z.lt_ge_cases (Z.of_nat (length results)) k) as [Hlt|Hge].
    + rewrite (H4 Hlt) in Hin. now apply elem_of_nil in Hin.
    + lia.
  - apply Forall_forall. intros r Hr. apply (H3 _ _ (H2 _ Hr) Hin).
Qed.

Lemma k_lowest_stock_lowest_witness :
  Forall (fun r => Heapq.entry_leb (quantity r, prod_id r) (20, 2) = true)
         (fst (k_lowest_stock 1 (inventory restocked))).
Proof.
  destruct (k_lowest_stock_lowest 1 (inventory restocked) 2 product_b) as [_ H].
  - unfold index_keyed. compute_done.
  - unfold heap_covers. compute_done.
  - reflexivity.
  - assert (fst (k_lowest_stock 1 (inventory restocked)) = [product_a]) as ->
      by (vm_compute; reflexivity).
    intros [H|H]%elem_of_cons; [discriminate | now apply elem_of_nil in H].
  - exact H.
Defined.

(** C1 at a state that four calls reach. Product 1 was stocked with 10
    units, 3 of them were reserved and the reservation was undone; the heap
    then holds the snapshot (10, 1) twice, both match the current quantity,
    and the query counts the product once for each: asked for the two
    products of lowest stock it returns product 1 twice and leaves out
    product 2, and asked for five it lists product 1 twice. *)
Theorem k_lowest_stock_repeats_product :
  reachable restocked /\
  to_list (inventory restocked) = [product_a; product_b] /\
  low_stock_heap (inventory restocked) ≡ₚ [(10, 1); (7, 1); (20, 2); (10, 1)] /\
  fst (k_lowest_stock 2 (inventory restocked)) = [product_a; product_a] /\
  fst (k_lowest_stock 5 (inventory restocked)) = [product_a; product_a; product_b].
Proof.
  split; [apply reachable_run_all, reachable_initial|].
  split; [vm_compute; reflexivity|].
  split; [vm_compute; reflexivity|].
  split; vm_compute; reflexivity.
Qed.

End low_stock_answer.

(** ** The hypotheses above hold in every state of a run *)

Section run_facts.

Lemma reachable_cart_known st : reachable st -> cart_known st.
Proof. intros H. apply (reachable_consistent st H). Qed.

Lemma reachable_cart_positive st : reachable st -> cart_positive (cart st).
Proof. intros H. apply (reachable_consistent st H). Qed.

Lemma reachable_cart_wf st : reachable st -> PyDict.wf (cart st).
Proof. intros H. apply (reachable_consistent st H). Qed.

Lemma reachable_heap_covers st : reachable st -> heap_covers (inventory st).
Proof. intros H. apply (reachable_consistent st H). Qed.

Lemma reachable_index_keyed st : reachable st -> index_keyed (inventory st).
Proof. intros H. apply (reachable_consistent st H). Qed.

(** In a run, [undo_last] finds the entry of the cart that it lowers: it
    does not raise. *)
Lemma reachable_undo_returns st :
  reachable st -> fst (undo_last st) <> Raise KeyError.
Proof.
  intros Hr. pose proof (reachable_consistent _ Hr) as Hc.
  pose proof (run_ledger_step OpUndoLast st) as Hl.
  destruct Hc as (Hu & _ & _ & _ & Hb & _).
  unfold undo_last. destruct (undo_stack st) as [|[[act pid] qty] rest] eqn:E;
    [discriminate|].
  destruct (String.eqb act "add"); [|discriminate].
  destruct (find pid (inventory st)); [|discriminate].
  destruct (PyDict.get pid (cart st)) eqn:Hget; [discriminate|].
  exfalso. pose proof (undo_known_positive _ Hu) as Hpos. rewrite E in Hpos.
  inversion_clear Hpos as [|? ? Hq Hpos']. simpl in Hq.
  specialize (Hb pid). unfold PyDict.get_default in Hb. rewrite Hget, E in Hb.
  simpl in Hb. rewrite Z.eqb_refl in Hb.
  pose proof (recorded_nonneg pid _ Hpos'). lia.
Qed.

End run_facts.

(** * Further properties of the code *)

(** ** The index and the linked list *)

Section index_and_chain.

Implicit Types (inv : Inventory) (pid q : Z) (prod : Product).

Lemma omap_lookup_ext (idx idx' : gmap Z Product) (ids : list Z) :
  (forall i, i ∈ ids -> idx' !! i = idx !! i) ->
  omap (fun i => idx' !! i) ids = omap (fun i => idx !! i) ids.
Proof.
  induction ids as [|i ids IH]; intros H; csimpl; [reflexivity|].
  rewrite (H i) by apply list_elem_of_here.
  rewrite IH by (intros j Hj; apply H; now apply list_elem_of_further).
  reflexivity.
Qed.

(** X1. [add_product] refuses an identifier that the index holds and
    leaves the inventory as it was; it accepts a new one, after which
    [find] returns the product, every other product is found as before,
    and, the linked list and the index agreeing, [to_list] is the former
    list with the product at its end. *)
Theorem add_product_new_or_refused prod inv :
  (is_Some (find (prod_id prod) inv) -> add_product prod inv = (false, inv)) /\
  (find (prod_id prod) inv = None ->
     fst (add_product prod inv) = true /\
     find (prod_id prod) (snd (add_product prod inv)) = Some prod /\
     (forall pid, pid <> prod_id prod ->
        find pid (snd (add_product prod inv)) = find pid inv) /\
     (quantity prod, prod_id prod) ∈ low_stock_heap (snd (add_product prod inv)) /\
     (chain_indexed inv ->
        to_list (snd (add_product prod inv)) = to_list inv ++ [prod])).
Proof.
  unfold add_product, find. split.
  - intros [p ->]. reflexivity.
  - intros Hnone. rewrite Hnone. simpl.
    split; [reflexivity|]. split; [apply lookup_insert_eq|].
    split; [intros pid Hne; now apply lookup_insert_ne|].
    split; [apply list_elem_of_here|].
    intros [_ Hci]. unfold to_list. simpl. rewrite omap_app. csimpl.
    rewrite lookup_insert_eq. f_equal.
    apply omap_lookup_ext. intros i Hi. apply lookup_insert_ne.
    intros <-. apply (elem_of_list_to_set (C := gset Z)) in Hi.
    rewrite <- Hci in Hi. apply elem_of_dom in Hi as [p Hp]. congruence.
Qed.

Lemma add_product_new_or_refused_witness :
  add_product rice (inventory scenario_stocked) = (false, inventory scenario_stocked) /\
  to_list (snd (add_product product_b (inventory scenario_stocked)))
  = to_list (inventory scenario_stocked) ++ [product_b].
Proof.
  split.
  - apply (proj1 (add_product_new_or_refused rice (inventory scenario_stocked))).
    compute_done.
  - apply (proj2 (add_product_new_or_refused product_b (inventory scenario_stocked))).
    + reflexivity.
    + unfold chain_indexed. compute_done.
Defined.

Lemma same_products_refl inv : same_products inv inv.
Proof. now split. Qed.

Lemma same_products_trans inv1 inv2 inv3 :
  same_products inv1 inv2 -> same_products inv2 inv3 -> same_products inv1 inv3.
Proof. intros [? ?] [? ?]. split; congruence. Qed.

Lemma change_quantity_same_products inv pid q prod :
  index inv !! pid = Some prod ->
  same_products inv (update_quantity pid q (assign_quantity pid q inv)).
Proof.
  intros Hp. rewrite (change_quantity _ _ _ _ Hp). split; [reflexivity|]. simpl.
  apply dom_insert_lookup_L. eauto.
Qed.

Lemma update_quantity_same_products inv pid q :
  same_products inv (update_quantity pid q inv).
Proof.
  unfold update_quantity. destruct (index inv !! pid); [|apply same_products_refl].
  split; [reflexivity|]. simpl. apply dom_alter_L.
Qed.

Lemma k_lowest_stock_same_products k inv : same_products inv (snd (k_lowest_stock k inv)).
Proof. destruct (k_lowest_stock_frame k inv) as (Hi & Hc & _). split; congruence. Qed.

Lemma restore_stock_same_products items inv : same_products inv (restore_stock items inv).
Proof.
  revert inv. induction items as [|[pid qty] items IH]; intros inv; simpl.
  - apply same_products_refl.
  - destruct (find pid inv) as [prod|] eqn:Hp; [|apply IH].
    eapply same_products_trans; [|apply IH].
    now apply (change_quantity_same_products _ _ _ prod).
Qed.

(** A step keeps the products and their order, unless it is an
    [add_product] of a new identifier, which goes last. *)
Lemma run_products o st :
  same_products (inventory st) (inventory (run o st)) \/
  exists prod,
    index (inventory st) !! prod_id prod = None /\
    chain (inventory (run o st)) = chain (inventory st) ++ [prod_id prod] /\
    index (inventory (run o st)) = <[prod_id prod := prod]> (index (inventory st)).
Proof.
  destruct o; unfold run.
  - simpl. unfold add_product.
    destruct (index (inventory st) !! prod_id prod) eqn:Hp; simpl.
    + left. apply same_products_refl.
    + right. exists prod. auto.
  - left. apply update_quantity_same_products.
  - left. apply k_lowest_stock_same_products.
  - left. apply same_products_refl.
  - left. destruct (add_to_cart_cases pid qty st) as [->|(prod & Hp & H0 & Hq)];
      [apply same_products_refl|].
    destruct (add_to_cart_accepted _ _ _ _ Hp H0 Hq) as [-> _]. simpl.
    rewrite <- (change_quantity _ _ _ _ Hp).
    now apply (change_quantity_same_products _ _ _ prod).
  - left. unfold undo_last. destruct (undo_stack st) as [|[[act pid] qty] rest];
      [apply same_products_refl|].
    destruct (String.eqb act "add"); [|apply same_products_refl].
    destruct (find pid (inventory st)) as [prod|] eqn:Hp; [|apply same_products_refl].
    destruct (PyDict.get pid (cart st)); simpl;
      now apply (change_quantity_same_products _ _ _ prod).
  - left. destruct (compute_totals_frame st) as (-> & _). apply same_products_refl.
  - left. rewrite checkout_summary_frame.
    destruct (compute_totals_frame st) as (-> & _). apply same_products_refl.
  - left. apply same_products_refl.
  - left. destruct (on_checkout_cases now st) as [->|[->|(-> & _)]];
      try apply same_products_refl.
    destruct (compute_totals_frame st) as (-> & _). apply same_products_refl.
  - left. destruct (on_clear_cart_frame st) as (-> & _). apply restore_stock_same_products.
Qed.

Lemma chain_indexed_run o st :
  chain_indexed (inventory st) -> chain_indexed (inventory (run o st)).
Proof.
  intros [Hnd Hdom].
  destruct (run_products o st) as [[Hc Hd]|(prod & Hp & Hc & Hi)]; unfold chain_indexed.
  - now rewrite Hc, Hd.
  - rewrite Hc, Hi. split.
    + apply NoDup_app. split; [assumption|]. split; [|apply NoDup_singleton].
      intros i Hi1 ->%list_elem_of_singleton.
      apply (elem_of_list_to_set (C := gset Z)) in Hi1. rewrite <- Hdom in Hi1.
      apply elem_of_dom in Hi1 as [? ?]. congruence.
    + rewrite dom_insert_L, list_to_set_app_L, Hdom. simpl.
      rewrite (right_id_L ∅ (∪)). apply (comm_L (∪)).
Qed.

Lemma reachable_chain_indexed st : reachable st -> chain_indexed (inventory st).
Proof.
  induction 1 as [|o st _ IH]; [|now apply chain_indexed_run].
  unfold chain_indexed. simpl. split; [constructor | set_solver].
Qed.

Lemma omap_lookup_ids (idx : gmap Z Product) (ids : list Z) :
  map_Forall (fun i p => prod_id p = i) idx ->
  (forall i, i ∈ ids -> is_Some (idx !! i)) ->
  map prod_id (omap (fun i => idx !! i) ids) = ids.
Proof.
  intros Hkey. induction ids as [|i ids IH]; intros Hin; csimpl; [reflexivity|].
  destruct (Hin i) as [p Hp]; [apply list_elem_of_here|]. rewrite Hp. csimpl.
  rewrite IH by (intros j Hj; apply Hin; now apply list_elem_of_further).
  f_equal. apply (map_Forall_lookup_1 _ _ _ _ Hkey Hp).
Qed.

(** The identifiers of [to_list] are those of the linked list. *)
Lemma to_list_ids inv :
  chain_indexed inv -> index_keyed inv -> map prod_id (to_list inv) = chain inv.
Proof.
  intros [_ Hdom] Hkey. apply omap_lookup_ids; [assumption|].
  intros i Hi. apply elem_of_dom. rewrite Hdom. now apply elem_of_list_to_set.
Qed.

(** X2. In every state of a run [to_list] lists the products of the index,
    each once: a product is in the list exactly when [find] returns it
    under its identifier, no identifier comes twice, and the list is as
    long as the index is large. No step disturbs the order: the
    identifiers of the list after a step are those before it, followed by
    the identifier of a product that the step added, if any. *)
Theorem to_list_lists_index st :
  reachable st ->
  (forall prod, prod ∈ to_list (inventory st) <-> find (prod_id prod) (inventory st) = Some prod) /\
  NoDup (map prod_id (to_list (inventory st))) /\
  length (to_list (inventory st)) = size (index (inventory st)) /\
  (forall o, exists added,
     map prod_id (to_list (inventory (run o st)))
     = map prod_id (to_list (inventory st)) ++ added /\ (length added <= 1)%nat).
Proof.
  intros Hr. pose proof (reachable_chain_indexed _ Hr) as Hci.
  pose proof (reachable_index_keyed _ Hr) as Hkey.
  pose proof (to_list_ids _ Hci Hkey) as Hids. destruct Hci as [Hnd Hdom].
  split; [|split; [|split]].
  - intros prod. unfold to_list, find. rewrite list_elem_of_omap. split.
    + intros (i & _ & Hp). now rewrite (map_Forall_lookup_1 _ _ _ _ Hkey Hp).
    + intros Hp. exists (prod_id prod). split; [|assumption].
      apply (elem_of_list_to_set (C := gset Z)). rewrite <- Hdom.
      apply elem_of_dom. eauto.
  - now rewrite Hids.
  - rewrite <- (length_map prod_id), Hids, <- size_dom, Hdom.
    symmetry. now apply size_list_to_set.
  - intros o. pose proof (reachable_run o st Hr) as Hr'.
    rewrite Hids, (to_list_ids _ (reachable_chain_indexed _ Hr') (reachable_index_keyed _ Hr')).
    destruct (run_products o st) as [[Hc _]|(prod & _ & Hc & _)].
    + exists []. rewrite Hc, app_nil_r. auto.
    + exists [prod_id prod]. rewrite Hc. auto.
Qed.

Lemma to_list_lists_index_witness :
  (forall prod, prod ∈ to_list (inventory restocked)
                <-> find (prod_id prod) (inventory restocked) = Some prod) /\
  length (to_list (inventory restocked)) = size (index (inventory restocked)).
Proof.
  destruct (to_list_lists_index restocked) as (H1 & _ & H2 & _).
  - apply reachable_run_all, reachable_initial.
  - split; [exact H1 | exact H2].
Defined.

(** X3. [update_quantity] ignores an identifier that the index does not
    hold. For one it holds, the product found afterwards has the new
    quantity and the identifier, name and price it had; the other products
    are found as before, and the heap holds what it held and the snapshot
    of the new quantity. The change is seen through the linked list as
    well: with every product filed under its own identifier, [to_list] is
    the former list with the new quantity in the record of that product,
    in the same order. *)
Theorem update_quantity_in_place pid q inv :
  (find pid inv = None -> update_quantity pid q inv = inv) /\
  (forall prod, find pid inv = Some prod ->
     find pid (update_quantity pid q inv)
     = Some (mkProduct (prod_id prod) (name prod) (price prod) q) /\
     (forall pid', pid' <> pid ->
        find pid' (update_quantity pid q inv) = find pid' inv) /\
     low_stock_heap (update_quantity pid q inv) ≡ₚ (q, pid) :: low_stock_heap inv /\
     (index_keyed inv ->
        to_list (update_quantity pid q inv)
        = map (fun p => if prod_id p =? pid
                        then mkProduct (prod_id p) (name p) (price p) q else p)
              (to_list inv))).
Proof.
  unfold find. split.
  - unfold update_quantity. now intros ->.
  - intros prod Hp. split; [|split; [|split]].
    + rewrite update_quantity_index. rewrite decide_True by reflexivity. now rewrite Hp.
    + intros pid' Hne. rewrite update_quantity_index. now rewrite decide_False by congruence.
    + unfold update_quantity. rewrite Hp. reflexivity.
    + intros Hkey. unfold to_list.
      assert (chain (update_quantity pid q inv) = chain inv) as ->
        by apply update_quantity_same_products.
      induction (chain inv) as [|i ids IH]; csimpl; [reflexivity|].
      rewrite update_quantity_index.
      destruct (index inv !! i) as [p|] eqn:Hi.
      * pose proof (map_Forall_lookup_1 _ _ _ _ Hkey Hi) as Hid. simpl in Hid.
        destruct (decide (pid = i)) as [->|Hne]; csimpl; rewrite IH; f_equal.
        -- now rewrite (proj2 (Z.eqb_eq (prod_id p) i) Hid).
        -- rewrite (proj2 (Z.eqb_neq (prod_id p) pid)) by congruence. reflexivity.
      * destruct (decide (pid = i)); csimpl; exact IH.
Qed.

Lemma update_quantity_in_place_witness :
  update_quantity 7 3 (inventory restocked) = inventory restocked /\
  to_list (inventory restocked) = [mkProduct 1 "A" lit_50 10; mkProduct 2 "B" lit_50 20] /\
  to_list (update_quantity 2 3 (inventory restocked))
  = [mkProduct 1 "A" lit_50 10; mkProduct 2 "B" lit_50 3].
Proof.
  split; [|split].
  - apply (proj1 (update_quantity_in_place 7 3 (inventory restocked))). reflexivity.
  - reflexivity.
  - destruct (proj2 (update_quantity_in_place 2 3 (inventory restocked)) product_b)
      as (_ & _ & _ & H); [reflexivity|].
    rewrite H; [reflexivity|]. unfold index_keyed. compute_done.
Defined.

End index_and_chain.

(** ** The low-stock query, further *)

Section low_stock_further.

Implicit Types (h : list Heapq.entry) (idx : gmap Z Product) (k seen : Z).

(** The snapshots of the results, in their order, are among the popped
    entries, in theirs. *)
Lemma low_stock_loop_sublist fuel k seen idx h :
  map_Forall (fun pid p => prod_id p = pid) idx ->
  sublist (map (fun p => (quantity p, prod_id p)) (low_stock_loop fuel k seen idx h).1.2)
          (low_stock_loop fuel k seen idx h).2.
Proof.
  intros Hkey. revert seen h. induction fuel as [|fuel IH]; intros seen h; simpl.
  { constructor. }
  destruct (negb (bool_decide (h = [])) && (seen <? k)); [|constructor].
  destruct (Heapq.heappop h) as [[[qty pid] h']|]; [|constructor].
  destruct (idx !! pid) as [prod|] eqn:Hp;
    [destruct (Z.eqb_spec (quantity prod) qty) as [Hq|Hq]|].
  - specialize (IH (seen + 1) h').
    destruct (low_stock_loop fuel k (seen + 1) idx h') as [[h2 results] popped].
    simpl in *. rewrite (map_Forall_lookup_1 _ _ _ _ Hkey Hp), Hq.
    now apply sublist_skip.
  - specialize (IH seen h').
    destruct (low_stock_loop fuel k seen idx h') as [[h2 results] popped].
    simpl in *. now apply sublist_cons.
  - specialize (IH seen h').
    destruct (low_stock_loop fuel k seen idx h') as [[h2 results] popped].
    simpl in *. now apply sublist_cons.
Qed.

(** X6. When the heap holds no entry twice, and with the heap invariant,
    [k_lowest_stock k] returns no product twice, and it returns [k]
    products, or all the products of the index when there are fewer than
    [k] (none for [k <= 0]). *)
Lemma k_lowest_stock_distinct k inv :
  index_keyed inv -> heap_covers inv -> NoDup (low_stock_heap inv) ->
  NoDup (map prod_id (fst (k_lowest_stock k inv))) /\
  Z.of_nat (length (fst (k_lowest_stock k inv)))
  = Z.min (Z.max 0 k) (Z.of_nat (size (index inv))).
Proof.
  intros Hkey Hcov Hnd.
  destruct (low_stock_loop_sound (length (low_stock_heap inv)) k 0 (index inv)
              (low_stock_heap inv) Hkey) as (Hcur & _ & Hlen).
  destruct (low_stock_loop_complete (length (low_stock_heap inv)) k 0 (index inv)
              (low_stock_heap inv) Hkey (le_n _)) as (Hall & _ & _ & Hleft).
  pose proof (low_stock_loop_sublist (length (low_stock_heap inv)) k 0 (index inv)
                (low_stock_heap inv) Hkey) as Hsub.
  pose proof (low_stock_loop_entries (length (low_stock_heap inv)) k 0 (index inv)
                (low_stock_heap inv)) as Hent.
  unfold k_lowest_stock.
  destruct (low_stock_loop _ k 0 (index inv) (low_stock_heap inv)) as [[h results] popped].
  simpl in *. rewrite Forall_forall in Hcur. rewrite Z.sub_0_r in Hlen.
  assert (NoDup (map prod_id results)) as Hids.
  { rewrite <- Hent in Hnd. apply NoDup_app in Hnd as (Hpop & _ & _).
    assert (NoDup (map (fun p => (quantity p, prod_id p)) results)) as Hkeys
      by (eapply sublist_NoDup; eauto).
    clear -Hkeys Hcur. induction results as [|r results IH]; simpl; [constructor|].
    simpl in Hkeys. rewrite NoDup_cons in Hkeys. destruct Hkeys as [Hr Hrest].
    apply NoDup_cons. split.
    - intros (r' & Hid & Hin)%list_elem_of_fmap. apply Hr.
      apply list_elem_of_fmap. exists r'. split; [|assumption].
      destruct (Hcur r) as [Hf _]; [apply list_elem_of_here|].
      destruct (Hcur r') as [Hf' _]; [now apply list_elem_of_further|].
      rewrite Hid, Hf' in Hf. injection Hf as ->. reflexivity.
    - apply IH; [|assumption]. intros p Hp. apply Hcur. now apply list_elem_of_further. }
  split; [assumption|].
  assert ((length results <= size (index inv))%nat) as Hle.
  { rewrite <- (length_map prod_id), <- size_dom.
    rewrite <- (size_list_to_set (C := gset Z) _ Hids). apply subseteq_size.
    intros i (r & -> & Hr)%elem_of_list_to_set%list_elem_of_fmap.
    apply elem_of_dom. destruct (Hcur r Hr) as [Hf _]. eauto. }
  destruct (Z.lt_ge_cases (Z.of_nat (length results)) (Z.max 0 k)) as [Hlt|Hge]; [|lia].
  assert ((size (index inv) <= length results)%nat) as Hge; [|lia].
  rewrite <- (length_map prod_id), <- size_dom.
  rewrite <- (size_list_to_set (C := gset Z) _ Hids). apply subseteq_size.
  intros i [p Hp]%elem_of_dom. apply elem_of_list_to_set.
  pose proof (map_Forall_lookup_1 _ _ _ _ Hcov Hp) as Hsnap. simpl in Hsnap.
  rewrite <- Hent in Hsnap. apply elem_of_app in Hsnap as [Hin|Hin].
  - apply list_elem_of_fmap. exists p. split.
    + symmetry. apply (map_Forall_lookup_1 _ _ _ _ Hkey Hp).
    + eapply Hall; eauto.
  - rewrite Hleft in Hin by lia. now apply elem_of_nil in Hin.
Qed.

Lemma k_lowest_stock_distinct_witness :
  NoDup (map prod_id (fst (k_lowest_stock 5 (inventory scenario_reserved)))) /\
  Z.of_nat (length (fst (k_lowest_stock 5 (inventory scenario_reserved)))) = 1.
Proof.
  apply (k_lowest_stock_distinct 5 (inventory scenario_reserved)).
  - unfold index_keyed. compute_done.
  - unfold heap_covers. compute_done.
  - compute_done.
Defined.

End low_stock_further.

(** ** An inventory stocked by [add_product] alone *)

Section stocking.

Lemma add_product_fresh_heap prod inv :
  heap_known inv -> NoDup (low_stock_heap inv) ->
  length (low_stock_heap inv) = size (index inv) ->
  heap_known (snd (add_product prod inv)) /\
  NoDup (low_stock_heap (snd (add_product prod inv))) /\
  length (low_stock_heap (snd (add_product prod inv)))
  = size (index (snd (add_product prod inv))).
Proof.
  intros Hk Hnd Hlen. unfold add_product.
  destruct (index inv !! prod_id prod) eqn:Hp; simpl; [auto|].
  unfold heap_known in *. simpl. split; [|split].
  - constructor; [simpl; rewrite lookup_insert_eq; eauto|].
    eapply Forall_impl; [exact Hk|]. intros e [p He]. simpl.
    rewrite lookup_insert_is_Some. destruct (decide (prod_id prod = e.2)); eauto.
  - unfold Heapq.heappush. apply NoDup_cons. split; [|assumption].
    intros Hin. rewrite Forall_forall in Hk. destruct (Hk _ Hin) as [p Hp'].
    simpl in Hp'. congruence.
  - unfold Heapq.heappush. simpl. rewrite Hlen. symmetry.
    now apply map_size_insert_None.
Qed.

(** X7. However many products [add_product] is given, and whatever
    identifiers they repeat, the inventory it builds from the empty one is
    in order: every product is filed under its own identifier, the linked
    list and the index hold the same products, and the heap holds one
    snapshot for each product, the current one, and no other entry. *)
Theorem stock_all_in_order prods :
  index_keyed (stock_all prods empty_inventory) /\
  chain_indexed (stock_all prods empty_inventory) /\
  heap_covers (stock_all prods empty_inventory) /\
  NoDup (low_stock_heap (stock_all prods empty_inventory)) /\
  length (low_stock_heap (stock_all prods empty_inventory))
  = size (index (stock_all prods empty_inventory)).
Proof.
  assert (forall inv,
    (index_keyed inv /\ chain_indexed inv /\ heap_covers inv /\ heap_known inv /\
     NoDup (low_stock_heap inv) /\ length (low_stock_heap inv) = size (index inv)) ->
    index_keyed (stock_all prods inv) /\ chain_indexed (stock_all prods inv) /\
    heap_covers (stock_all prods inv) /\ NoDup (low_stock_heap (stock_all prods inv)) /\
    length (low_stock_heap (stock_all prods inv)) = size (index (stock_all prods inv)))
    as Hgen.
  { induction prods as [|prod prods IH]; intros inv (Hk & Hc & Hh & Hn & Hd & Hl);
      simpl; [auto|].
    apply IH. destruct (add_product_step prod inv) as (_ & Hh' & Hk').
    destruct (add_product_fresh_heap prod inv Hn Hd Hl) as (Hn' & Hd' & Hl').
    repeat split; auto.
    - apply (chain_indexed_run (OpAddProduct prod) (new_billing inv) Hc).
    - apply (chain_indexed_run (OpAddProduct prod) (new_billing inv) Hc). }
  apply Hgen. unfold index_keyed, chain_indexed, heap_covers, heap_known. simpl.
  repeat split; try constructor; try apply map_Forall_empty.
Qed.

End stocking.

(** ** Totals, further *)

Section totals_further.

Implicit Types (st : BillingSystem) (inv : Inventory).

Lemma sum_lines_index inv inv' items acc :
  index inv = index inv' -> sum_lines inv items acc = sum_lines inv' items acc.
Proof.
  intros Hi. revert acc. induction items as [|[pid qty] items IH]; intros acc; simpl;
    [reflexivity|].
  unfold find. rewrite Hi. destruct (index inv' !! pid); [|apply IH].
  destruct (Float64.of_int qty); [apply IH | reflexivity].
Qed.

(** X8. [compute_totals] reads the cart and the products of the index and
    nothing else: two states with the same cart and the same products get
    the same outcome and the same subtotal, and the same discount when the
    call returns, whatever totals, undo stack, customer name or heap they
    held. It writes the two totals and nothing else, and computing again
    changes nothing: a second call gives the outcome and the state of the
    first. *)
Theorem compute_totals_recomputes st :
  (forall st',
     index (inventory st') = index (inventory st) -> cart st' = cart st ->
     fst (compute_totals st') = fst (compute_totals st) /\
     subtotal (snd (compute_totals st')) = subtotal (snd (compute_totals st)) /\
     (fst (compute_totals st) = Return tt ->
      discount (snd (compute_totals st')) = discount (snd (compute_totals st)))) /\
  (inventory (snd (compute_totals st)), cart (snd (compute_totals st)),
   undo_stack (snd (compute_totals st)), customer_name (snd (compute_totals st)))
  = (inventory st, cart st, undo_stack st, customer_name st) /\
  compute_totals (snd (compute_totals st)) = compute_totals st.
Proof.
  split; [|split].
  - intros st' Hi Hc. unfold compute_totals.
    rewrite Hc, (sum_lines_index _ _ _ _ Hi).
    destruct (sum_lines (inventory st) (cart st) Float64.zero) as [[|] s]; simpl; auto.
    repeat split. discriminate.
  - destruct (compute_totals_frame st) as (-> & -> & -> & ->). reflexivity.
  - unfold compute_totals.
    destruct (sum_lines (inventory st) (cart st) Float64.zero) as [[|] s] eqn:E;
      simpl; rewrite E; reflexivity.
Qed.

Lemma compute_totals_recomputes_witness :
  subtotal (snd (compute_totals (set_customer_name "Ada" scenario_reserved)))
  = subtotal (snd (compute_totals scenario_reserved)).
Proof.
  apply (proj1 (compute_totals_recomputes scenario_reserved)
           (set_customer_name "Ada" scenario_reserved)); reflexivity.
Defined.

(** [s[:n]] has the first [n] code points of [s], or all of them when
    there are fewer. *)
Lemma prefix_len n s : PyStr.len (PyStr.prefix n s) = Nat.min n (PyStr.len s).
Proof.
  revert n. induction s as [|c s IH]; intros n; simpl.
  - now rewrite Nat.min_0_r.
  - destruct (PyStr.is_continuation c) eqn:E; simpl.
    + rewrite E. apply IH.
    + destruct n as [|n]; simpl; [reflexivity|]. now rewrite E, IH.
Qed.

(** It is the beginning of [s], and what it leaves off begins a code
    point. *)
Lemma prefix_cut n s :
  exists t,
    s = String.append (PyStr.prefix n s) t /\
    match t with
    | EmptyString => True
    | String c _ => PyStr.is_continuation c = false
    end.
Proof.
  revert n. induction s as [|c s IH]; intros n; simpl.
  - now exists EmptyString.
  - destruct (PyStr.is_continuation c) eqn:E.
    + destruct (IH n) as (t & Ht & Hc). exists t. split; [|exact Hc].
      change (String c s = String c (String.append (PyStr.prefix n s) t)).
      now f_equal.
    + destruct n as [|n].
      * exists (String c s). now split.
      * destruct (IH n) as (t & Ht & Hc). exists t. split; [|exact Hc].
        change (String c s = String c (String.append (PyStr.prefix n s) t)).
        now f_equal.
Qed.

(** A [str] of at most [n] code points is its own slice. *)
Lemma prefix_whole n s : (PyStr.len s <= n)%nat -> PyStr.prefix n s = s.
Proof.
  revert n. induction s as [|c s IH]; intros n; simpl; [reflexivity|].
  destruct (PyStr.is_continuation c).
  - intros H. now rewrite IH.
  - destruct n as [|n]; [lia|]. intros H. rewrite IH; [reflexivity | lia].
Qed.

(** The lines of the bill and the running sum, side by side. *)
Lemma item_lines_and_sum inv items acc :
  Forall (fun e : Z * Z => is_Some (index inv !! e.1)) items ->
  cart_converts items ->
  exists ls,
    item_lines inv items = Some ls /\
    Forall2 (fun (e : Z * Z) l =>
               exists prod, find e.1 inv = Some prod /\ l = bill_line_for prod e.2)
            items ls /\
    sum_lines inv items acc = (true, fold_left Float64.add (map line_total ls) acc).
Proof.
  intros Hk Hc. revert acc. induction items as [|[pid qty] items IH]; intros acc; simpl.
  - exists []. repeat split. constructor.
  - inversion_clear Hk as [|? ? [prod Hp] Hk']. inversion_clear Hc as [|? ? [fq Hq] Hc'].
    simpl in Hp, Hq. unfold find in *. rewrite Hp, Hq.
    destruct (IH Hk' Hc' (Float64.add acc (Float64.mul (price prod) fq)))
      as (ls & -> & Hls & ->).
    eexists. split; [reflexivity|]. split.
    + constructor; [|assumption]. exists prod. split; [assumption|].
      unfold bill_line_for. simpl. now rewrite (of_int_to_float _ _ Hq).
    + reflexivity.
Qed.

(** X9. For a cart whose entries name products of the inventory and hold
    quantities that convert to [float], [checkout_summary] returns a bill
    with the given date and the customer name, one line for each entry of
    the cart, in the order of the cart, with the first 20 characters (code
    points, whatever bytes encode them) of the product's name, the whole
    name when it has no more, the quantity, the current price and their
    product; the subtotal of the bill is the sum of the line totals, added
    in that order from 0.0, and its total is the subtotal minus the
    discount. The cart is left in place. *)
Theorem checkout_summary_itemizes now st :
  cart_known st -> cart_converts (cart st) ->
  exists b,
    checkout_summary now st = (Return b, snd (compute_totals st)) /\
    bill_date b = now /\
    bill_customer b = customer_name st /\
    Forall2 (fun (e : Z * Z) l =>
               exists prod, find e.1 (inventory st) = Some prod /\
                            l = bill_line_for prod e.2 /\
                            PyStr.len (line_name l) = Nat.min 20 (PyStr.len (name prod)) /\
                            ((PyStr.len (name prod) <= 20)%nat -> line_name l = name prod))
            (cart st) (bill_lines b) /\
    bill_subtotal b = fold_left Float64.add (map line_total (bill_lines b)) Float64.zero /\
    bill_total b = Float64.sub (bill_subtotal b) (bill_discount b) /\
    cart (snd (compute_totals st)) = cart st.
Proof.
  intros Hk Hc.
  destruct (item_lines_and_sum (inventory st) (cart st) Float64.zero Hk Hc)
    as (ls & Hls & Hf & Hs).
  unfold checkout_summary, compute_totals. rewrite Hs. simpl. rewrite Hls.
  eexists. split; [reflexivity|]. simpl.
  split; [reflexivity|]. split; [reflexivity|]. split; [|auto].
  eapply Forall2_impl; [exact Hf|]. intros e l (prod & Hp & ->).
  exists prod. split; [assumption|]. split; [reflexivity|]. simpl.
  split; [apply prefix_len | apply prefix_whole].
Qed.

Lemma checkout_summary_itemizes_witness :
  exists b,
    fst (checkout_summary "2026-01-01 10:00:00" dessert_reserved) = Return b /\
    map line_name (bill_lines b) = ["Crème brûlée à la va"%string] /\
    map line_qty (bill_lines b) = [2] /\
    bill_subtotal b = to_float 100.
Proof.
  destruct (checkout_summary_itemizes "2026-01-01 10:00:00" dessert_reserved)
    as (b & H1 & _ & _ & H2 & H3 & _).
  - unfold cart_known. compute_done.
  - unfold cart_converts. compute_done.
  - exists b. rewrite H1. split; [reflexivity|].
    inversion H2 as [|e l es ls (prod & Hp & Hl & _) Hrest E1 E2]; subst.
    inversion Hrest as [E3 E4|]; subst.
    vm_compute in Hp. injection Hp as <-.
    rewrite H3, <- E2. split; [|split]; vm_compute; reflexivity.
Defined.

End totals_further.

(** ** After a checkout *)

Section after_checkout.

Implicit Types (st : BillingSystem).

Lemma slab_zero : slab Float64.zero = Float64.zero.
Proof. vm_compute. reflexivity. Qed.

Lemma compute_totals_cleared st :
  compute_totals (clear st)
  = (Return tt, mkBilling (inventory st) [] [] EmptyString Float64.zero Float64.zero).
Proof.
  unfold compute_totals, clear. cbn [cart inventory undo_stack customer_name sum_lines].
  now rewrite slab_zero.
Qed.

(** X10. A checkout that completes leaves nothing to take back: the state
    it leaves has the inventory as the sale left it, the reserved stock
    still deducted, and zero totals; in that state [undo_last] finds
    nothing to undo, a second checkout is refused for an empty cart, and
    neither changes anything. *)
Theorem on_checkout_is_final now st b st' :
  on_checkout now st = (Return (CheckedOut b), st') ->
  st' = mkBilling (inventory st) [] [] EmptyString Float64.zero Float64.zero /\
  undo_last st' = (Return NothingToUndo, st') /\
  (forall now', on_checkout now' st' = (Return EmptyCart, st')) /\
  snd (on_clear_cart st') = st'.
Proof.
  unfold on_checkout. destruct (cart st) as [|e d]; [discriminate|].
  pose proof (checkout_summary_frame now st) as Hf.
  destruct (checkout_summary now st) as [[b0|e0] st1]; [|discriminate].
  simpl in Hf. subst st1. rewrite compute_totals_cleared.
  destruct (compute_totals_frame st) as (-> & _).
  intros [= <- <-]. repeat split.
Qed.

Lemma on_checkout_is_final_witness :
  exists st',
    snd (on_checkout "2026-01-01 10:00:00" scenario_reserved) = st' /\
    undo_last st' = (Return NothingToUndo, st') /\
    on_checkout "2026-01-02 10:00:00" st' = (Return EmptyCart, st').
Proof.
  destruct (on_checkout "2026-01-01 10:00:00" scenario_reserved) as [r st'] eqn:E.
  assert (exists b, r = Return (CheckedOut b)) as [b ->].
  { assert (fst (on_checkout "2026-01-01 10:00:00" scenario_reserved) = r) as <-
      by (now rewrite E).
    vm_compute. eauto. }
  destruct (on_checkout_is_final _ _ _ _ E) as (_ & H1 & H2 & _).
  exists st'. split; [reflexivity|]. split; [exact H1 | apply H2].
Defined.

End after_checkout.

(** ** Undo in a run *)

Section undo_in_run.

Implicit Types (st : BillingSystem) (pid qty : Z).

(** What [undo_last] does in a consistent state with an action on the
    stack. *)
Lemma undo_last_effect st act pid qty rest :
  consistent st -> undo_stack st = (act, pid, qty) :: rest ->
  exists prod c,
    index (inventory st) !! pid = Some prod /\
    PyDict.get pid (cart st) = Some c /\
    0 < qty /\ qty <= c /\
    undo_last st
    = (Return (Undone qty (name prod)),
       mkBilling
         (mkInventory (chain (inventory st))
            (<[pid := with_quantity prod (quantity prod + qty)]> (index (inventory st)))
            ((quantity prod + qty, pid) :: low_stock_heap (inventory st)))
         (if c - qty <=? 0 then PyDict.pop pid (PyDict.set pid (c - qty) (cart st))
          else PyDict.set pid (c - qty) (cart st))
         rest (customer_name st) (subtotal st) (discount st)).
Proof.
  intros (Hu & _ & _ & _ & Hb & _) E.
  pose proof (undo_known_positive _ Hu) as Hpos.
  unfold undo_known in Hu. rewrite E in Hu, Hpos.
  inversion_clear Hu as [|? ? (Ha & [prod Hp] & Hq) _].
  inversion_clear Hpos as [|? ? _ Hpos']. simpl in Ha, Hp, Hq. subst act.
  pose proof (recorded_nonneg pid _ Hpos') as Hrec.
  pose proof (Hb pid) as Hbp. unfold PyDict.get_default in Hbp. rewrite E in Hbp.
  simpl in Hbp. rewrite Z.eqb_refl in Hbp.
  destruct (PyDict.get pid (cart st)) as [c|] eqn:Hc; [|lia].
  exists prod, c. repeat split; try assumption; try lia.
  unfold undo_last. rewrite E.
  change (String.eqb "add" "add") with true. cbv iota.
  unfold find. rewrite Hp, Hc, (change_quantity _ _ _ _ Hp). reflexivity.
Qed.

(** X11. In a run, [undo_last] with an action on the stack always
    succeeds: it neither raises [KeyError] nor reports a missing product.
    It takes the top action [(_, pid, qty)] off the stack, returns [qty]
    units to the stock of [pid], and lowers the cart's entry for [pid],
    which held at least [qty], by [qty], removing the entry when nothing
    is left of it; the other products and the other entries stay as they
    were. *)
Theorem undo_last_succeeds st act pid qty rest :
  reachable st -> undo_stack st = (act, pid, qty) :: rest ->
  exists prod c,
    find pid (inventory st) = Some prod /\
    PyDict.get pid (cart st) = Some c /\ qty <= c /\
    fst (undo_last st) = Return (Undone qty (name prod)) /\
    undo_stack (snd (undo_last st)) = rest /\
    find pid (inventory (snd (undo_last st)))
    = Some (mkProduct (prod_id prod) (name prod) (price prod) (quantity prod + qty)) /\
    PyDict.get pid (cart (snd (undo_last st)))
    = (if c =? qty then None else Some (c - qty)) /\
    (forall pid', pid' <> pid ->
       find pid' (inventory (snd (undo_last st))) = find pid' (inventory st) /\
       PyDict.get pid' (cart (snd (undo_last st))) = PyDict.get pid' (cart st)).
Proof.
  intros Hr E.
  destruct (undo_last_effect _ _ _ _ _ (reachable_consistent _ Hr) E)
    as (prod & c & Hp & Hc & H0 & Hq & ->).
  exists prod, c. unfold find. simpl.
  split; [assumption|]. split; [assumption|]. split; [assumption|].
  split; [reflexivity|]. split; [reflexivity|].
  split; [exact (lookup_insert_eq _ _ _)|]. split.
  - destruct (Z.eqb_spec c qty) as [->|Hne].
    + rewrite (proj2 (Z.leb_le (qty - qty) 0)) by lia. apply get_pop_eq.
    + rewrite (proj2 (Z.leb_gt (c - qty) 0)) by lia. apply get_set_eq.
  - intros pid' Hne. split; [now apply lookup_insert_ne|].
    destruct (c - qty <=? 0).
    + rewrite get_pop_ne by congruence. now apply get_set_ne.
    + now apply get_set_ne.
Qed.

Lemma undo_last_succeeds_witness :
  find 1 (inventory scenario_reserved_more) = Some (mkProduct 1 "Rice" lit_50 89) /\
  PyDict.get 1 (cart scenario_reserved_more) = Some 11 /\
  fst (undo_last scenario_reserved_more) = Return (Undone 1 "Rice") /\
  find 1 (inventory (snd (undo_last scenario_reserved_more)))
  = Some (mkProduct 1 "Rice" lit_50 90) /\
  PyDict.get 1 (cart (snd (undo_last scenario_reserved_more))) = Some 10.
Proof.
  destruct (undo_last_succeeds scenario_reserved_more "add" 1 1 [("add"%string, 1, 10)])
    as (prod & c & H1 & H2 & _ & H3 & _ & H4 & H5 & _).
  - do 3 apply reachable_run. apply reachable_initial.
  - reflexivity.
  - assert (prod = mkProduct 1 "Rice" lit_50 89) as Hprod
      by (vm_compute in H1; injection H1 as <-; reflexivity).
    assert (c = 11) as Hc
      by (vm_compute in H2; injection H2 as <-; reflexivity).
    rewrite Hprod in H1, H3, H4. rewrite Hc in H2, H5.
    split; [exact H1|]. split; [exact H2|]. split; [exact H3|].
    split; [exact H4 | exact H5].
Defined.

End undo_in_run.

(** ** Reservations taken back in reverse order *)

Section last_in_first_out.

Implicit Types (st : BillingSystem).

(** [undo_last] reads the heap only to push on it. *)
Lemma undo_last_books st st' :
  books st = books st' ->
  fst (undo_last st) = fst (undo_last st') /\
  books (snd (undo_last st)) = books (snd (undo_last st')).
Proof.
  destruct st as [[ch idx h] c u n s d], st' as [[ch' idx' h'] c' u' n' s' d'].
  unfold books. simpl. intros [= -> -> -> -> -> -> ->].
  unfold undo_last. simpl. destruct u' as [|[[act pid] qty] rest]; [auto|].
  destruct (String.eqb act "add"); [|auto].
  unfold find. simpl. destruct (idx' !! pid) as [prod|] eqn:Hp; [|auto].
  rewrite (change_quantity (mkInventory ch' idx' h) _ _ _ Hp).
  rewrite (change_quantity (mkInventory ch' idx' h') _ _ _ Hp).
  destruct (PyDict.get pid c'); auto.
Qed.

Lemma undo_times_last n st :
  undo_times (S n) st = snd (undo_last (undo_times n st)).
Proof.
  revert st. induction n as [|n IH]; intros st; [reflexivity|].
  change (undo_times (S (S n)) st) with (undo_times (S n) (snd (undo_last st))).
  now rewrite IH.
Qed.

(** X12. Undo unwinds reservations last in, first out. After any sequence
    of reservations that [add_to_cart] all accepted, made in a state whose
    cart entries are positive, as many calls of [undo_last] bring back the
    products of the index with their stocks, the cart, entry for entry
    and in its order, and the undo stack that the state had before the
    first of them; only the heap keeps the snapshots pushed on the way. *)
Theorem undo_times_reverts_reservations rs st st' :
  cart_positive (cart st) ->
  reserve_all rs st = Some st' ->
  books (undo_times (length rs) st') = books st.
Proof.
  revert st st'. induction rs as [|[pid qty] rs IH]; intros st st' Hpos Hrs;
    simpl in Hrs.
  - now injection Hrs as ->.
  - destruct (add_to_cart pid qty st) as [[[| | |nm q lt]|e] st1] eqn:E; try discriminate.
    change (length ((pid, qty) :: rs)) with (S (length rs)). rewrite undo_times_last.
    assert (cart_positive (cart st1)) as Hpos1.
    { pose proof (run_ledger_step (OpAddToCart pid qty) st) as Hl.
      unfold run in Hl. rewrite E in Hl. now apply (cart_positive_step st). }
    specialize (IH st1 st' Hpos1 Hrs).
    destruct (undo_last_books _ _ IH) as [_ ->].
    destruct (add_to_cart_Added _ _ _ _ _ _ _ E) as (prod & Hp & H0 & Hq & _ & _).
    assert (forall c, PyDict.get pid (cart st) = Some c -> 0 < c) as Hc.
    { intros c Hc%get_Some_elem. unfold cart_positive in Hpos.
      rewrite Forall_forall in Hpos. apply (Hpos _ Hc). }
    pose proof (undo_after_add _ _ _ _ Hc Hp H0 Hq) as Hu.
    rewrite E in Hu. simpl in Hu. rewrite Hu. reflexivity.
Qed.

Lemma undo_times_reverts_reservations_witness :
  books (undo_times 2 scenario_reserved_more) = books scenario_stocked.
Proof.
  apply (undo_times_reverts_reservations [(1, 10); (1, 1)] scenario_stocked).
  - unfold cart_positive. compute_done.
  - vm_compute. reflexivity.
Defined.

End last_in_first_out.

(** ** Stock on the shelf and in the cart *)

Section stock_accounts.

Implicit Types (st : BillingSystem) (pid : Z) (o : op).

(** X13. During a sale no unit is lost or made: for every product, the
    units in stock and the units in the cart add up to the same number
    before and after a reservation, whether accepted, refused or raising,
    an undo, a clearing of the cart, a low-stock query and a computation
    of the totals, in every state of a run. *)
Theorem on_hand_conserved st pid o :
  reachable st -> in_sale o -> on_hand pid (run o st) = on_hand pid st.
Proof.
  intros Hr Hsale. pose proof (reachable_consistent _ Hr) as Hcons.
  unfold on_hand. destruct o; try contradiction; unfold run.
  - destruct (k_lowest_stock_frame k (inventory st)) as (Hi & _). simpl. now rewrite Hi.
  - reflexivity.
  - destruct (add_to_cart_cases pid0 qty st) as [->|(prod & Hp & H0 & Hq)]; [reflexivity|].
    destruct (add_to_cart_accepted _ _ _ _ Hp H0 Hq) as [-> _]. simpl.
    rewrite get_default_set. unfold find in Hp.
    destruct (Z.eqb_spec pid0 pid) as [->|Hne].
    + rewrite lookup_insert_eq, Hp. simpl. f_equal. lia.
    + now rewrite lookup_insert_ne.
  - destruct (undo_stack st) as [|[[act pid0] qty] rest] eqn:E.
    { unfold undo_last. rewrite E. reflexivity. }
    destruct (undo_last_effect _ _ _ _ _ Hcons E) as (prod & c & Hp & Hc & H0 & Hq & ->).
    simpl. destruct (Z.eqb_spec pid0 pid) as [->|Hne].
    + rewrite lookup_insert_eq, Hp. simpl. f_equal.
      unfold PyDict.get_default at 2. rewrite Hc.
      destruct (Z.leb_spec (c - qty) 0).
      * rewrite get_default_pop, Z.eqb_refl. lia.
      * rewrite get_default_set, Z.eqb_refl. lia.
    + rewrite lookup_insert_ne by assumption.
      destruct (c - qty <=? 0).
      * rewrite get_default_pop, get_default_set.
        now rewrite (proj2 (Z.eqb_neq pid0 pid)) by assumption.
      * rewrite get_default_set.
        now rewrite (proj2 (Z.eqb_neq pid0 pid)) by assumption.
  - destruct (compute_totals_frame st) as (-> & -> & _). reflexivity.
  - rewrite checkout_summary_frame.
    destruct (compute_totals_frame st) as (-> & -> & _). reflexivity.
  - destruct (on_clear_cart_frame st) as (-> & -> & _).
    rewrite restore_stock_index.
    destruct Hcons as (_ & _ & _ & Hwf & _). rewrite (reserved_wf _ _ Hwf).
    destruct (index (inventory st) !! pid) as [prod|]; [|reflexivity].
    simpl. f_equal. change (PyDict.get_default pid 0 []) with 0. lia.
Qed.

Lemma on_hand_conserved_witness :
  on_hand 1 (run (OpAddToCart 1 5) scenario_reserved) = Some 100 /\
  on_hand 1 (run OpUndoLast scenario_reserved) = Some 100 /\
  on_hand 1 (run OpClearCart scenario_reserved) = Some 100.
Proof.
  assert (reachable scenario_reserved) as Hr
    by (do 2 apply reachable_run; apply reachable_initial).
  split; [|split].
  - rewrite (on_hand_conserved scenario_reserved 1 (OpAddToCart 1 5) Hr I). reflexivity.
  - rewrite (on_hand_conserved scenario_reserved 1 OpUndoLast Hr I). reflexivity.
  - rewrite (on_hand_conserved scenario_reserved 1 OpClearCart Hr I). reflexivity.
Defined.

End stock_accounts.

(** ** What no step does to a product *)

Section records.

Implicit Types (st : BillingSystem) (inv : Inventory) (pid q : Z) (o : op).

Lemma same_records_refl inv : same_records inv inv.
Proof.
  intros pid prod' Hp. exists prod'. split; [assumption|].
  symmetry. apply with_quantity_same.
Qed.

Lemma same_records_trans inv1 inv2 inv3 :
  same_records inv1 inv2 -> same_records inv2 inv3 -> same_records inv1 inv3.
Proof.
  intros H12 H23 pid p3 Hp3. destruct (H23 _ _ Hp3) as (p2 & Hp2 & E3).
  destruct (H12 _ _ Hp2) as (p1 & Hp1 & E2). exists p1. split; [assumption|].
  rewrite E3, E2. reflexivity.
Qed.

Lemma change_quantity_same_records inv pid q prod :
  index inv !! pid = Some prod ->
  same_records inv (update_quantity pid q (assign_quantity pid q inv)).
Proof.
  intros Hp. rewrite (change_quantity _ _ _ _ Hp). intros pid' prod'. simpl.
  rewrite lookup_insert_Some. intros [[<- <-]|[_ Hp']].
  - exists prod. auto.
  - apply (same_records_refl inv _ _ Hp').
Qed.

Lemma update_quantity_same_records inv pid q :
  same_records inv (update_quantity pid q inv).
Proof.
  intros pid' prod'. rewrite update_quantity_index.
  destruct (decide (pid = pid')) as [<-|_]; [|apply same_records_refl].
  destruct (index inv !! pid) as [prod|]; [|discriminate].
  simpl. intros [= <-]. exists prod. auto.
Qed.

Lemma k_lowest_stock_same_records k inv : same_records inv (snd (k_lowest_stock k inv)).
Proof.
  destruct (k_lowest_stock_frame k inv) as (Hi & _).
  intros pid prod'. rewrite Hi. apply same_records_refl.
Qed.

Lemma restore_stock_same_records items inv : same_records inv (restore_stock items inv).
Proof.
  revert inv. induction items as [|[pid qty] items IH]; intros inv; simpl.
  - apply same_records_refl.
  - destruct (find pid inv) as [prod|] eqn:Hp; [|apply IH].
    eapply same_records_trans; [|apply IH].
    now apply (change_quantity_same_records _ _ _ prod).
Qed.

(** A step leaves the records what they were, quantities apart, unless it
    is an [add_product] of a new identifier. *)
Lemma run_records o st :
  same_records (inventory st) (inventory (run o st)) \/
  exists prod,
    o = OpAddProduct prod /\
    index (inventory st) !! prod_id prod = None /\
    index (inventory (run o st)) = <[prod_id prod := prod]> (index (inventory st)).
Proof.
  destruct o; unfold run.
  - simpl. unfold add_product.
    destruct (index (inventory st) !! prod_id prod) eqn:Hp; simpl.
    + left. apply same_records_refl.
    + right. exists prod. auto.
  - left. apply update_quantity_same_records.
  - left. apply k_lowest_stock_same_records.
  - left. apply same_records_refl.
  - left. destruct (add_to_cart_cases pid qty st) as [->|(prod & Hp & H0 & Hq)];
      [apply same_records_refl|].
    destruct (add_to_cart_accepted _ _ _ _ Hp H0 Hq) as [-> _]. simpl.
    rewrite <- (change_quantity _ _ _ _ Hp).
    now apply (change_quantity_same_records _ _ _ prod).
  - left. unfold undo_last. destruct (undo_stack st) as [|[[act pid] qty] rest];
      [apply same_records_refl|].
    destruct (String.eqb act "add"); [|apply same_records_refl].
    destruct (find pid (inventory st)) as [prod|] eqn:Hp; [|apply same_records_refl].
    destruct (PyDict.get pid (cart st)); simpl;
      now apply (change_quantity_same_records _ _ _ prod).
  - left. destruct (compute_totals_frame st) as (-> & _). apply same_records_refl.
  - left. rewrite checkout_summary_frame.
    destruct (compute_totals_frame st) as (-> & _). apply same_records_refl.
  - left. apply same_records_refl.
  - left. destruct (on_checkout_cases now st) as [->|[->|(-> & _)]];
      try apply same_records_refl.
    destruct (compute_totals_frame st) as (-> & _). apply same_records_refl.
  - left. destruct (on_clear_cart_frame st) as (-> & _). apply restore_stock_same_records.
Qed.

(** X14. No step removes a product, and no step changes the identifier,
    the name or the price of one: a product found after a step was found
    before it under the same identifier, with the same name and price, or
    it is the product that the step added under an identifier that was
    free. *)
Theorem products_keep_identity o st :
  (forall pid, is_Some (find pid (inventory st)) ->
               is_Some (find pid (inventory (run o st)))) /\
  (forall pid prod',
     find pid (inventory (run o st)) = Some prod' ->
     (exists prod,
        find pid (inventory st) = Some prod /\
        prod_id prod' = prod_id prod /\ name prod' = name prod /\
        price prod' = price prod) \/
     (find pid (inventory st) = None /\ o = OpAddProduct prod')).
Proof.
  split; [apply (run_inventory_step o st)|].
  unfold find. intros pid prod' Hp'.
  destruct (run_records o st) as [Hs|(prod & -> & Hnone & Hi)].
  - left. destruct (Hs _ _ Hp') as (prod & Hp & ->). exists prod. auto.
  - rewrite Hi in Hp'. apply lookup_insert_Some in Hp' as [[<- <-]|[_ Hp']].
    + now right.
    + left. exists prod'. auto.
Qed.

Lemma products_keep_identity_witness :
  exists prod,
    find 1 (inventory scenario_stocked) = Some prod /\
    name (with_quantity rice 90) = name prod /\ price (with_quantity rice 90) = price prod.
Proof.
  destruct (proj2 (products_keep_identity (OpAddToCart 1 10) scenario_stocked)
              1 (with_quantity rice 90)) as [(prod & H1 & _ & H2 & H3)|[H _]].
  - reflexivity.
  - exists prod. auto.
  - discriminate.
Defined.

(** Stock that is not negative stays so under a new quantity that is
    not. *)
Lemma change_quantity_nonneg inv pid q prod :
  index inv !! pid = Some prod -> 0 <= q -> stock_nonneg inv ->
  stock_nonneg (update_quantity pid q (assign_quantity pid q inv)).
Proof.
  intros Hp Hq Hs. rewrite (change_quantity _ _ _ _ Hp). unfold stock_nonneg in *. simpl.
  apply map_Forall_insert_2; [exact Hq | exact Hs].
Qed.

Lemma restore_stock_nonneg items inv :
  cart_positive items -> stock_nonneg inv -> stock_nonneg (restore_stock items inv).
Proof.
  intros Hpos. revert inv. induction Hpos as [|[pid qty] items Hq _ IH]; intros inv Hs;
    simpl; [assumption|].
  destruct (find pid inv) as [prod|] eqn:Hp; [|now apply IH].
  apply IH. apply (change_quantity_nonneg _ _ _ prod); [assumption| |assumption].
  pose proof (map_Forall_lookup_1 _ _ _ _ Hs Hp). simpl in *. lia.
Qed.

Lemma stock_nonneg_run o st :
  consistent st -> keeps_stock o -> stock_nonneg (inventory st) ->
  stock_nonneg (inventory (run o st)).
Proof.
  intros Hcons Hkeep Hs. destruct o; unfold run.
  - simpl. unfold add_product. destruct (index (inventory st) !! prod_id prod); simpl;
      [assumption|]. unfold stock_nonneg. simpl. now apply map_Forall_insert_2.
  - simpl in Hkeep. unfold stock_nonneg. rewrite map_Forall_lookup. intros pid' p'.
    simpl. rewrite update_quantity_index. destruct (decide (pid = pid')) as [<-|_].
    + destruct (index (inventory st) !! pid); [|discriminate]. now intros [= <-].
    + apply (map_Forall_lookup_1 _ _ _ _ Hs).
  - destruct (k_lowest_stock_frame k (inventory st)) as (Hi & _).
    unfold stock_nonneg. simpl. now rewrite Hi.
  - assumption.
  - destruct (add_to_cart_cases pid qty st) as [->|(prod & Hp & H0 & Hq)]; [assumption|].
    destruct (add_to_cart_accepted _ _ _ _ Hp H0 Hq) as [-> _]. simpl.
    rewrite <- (change_quantity _ _ _ _ Hp).
    apply (change_quantity_nonneg _ _ _ prod); [assumption | lia | assumption].
  - destruct (undo_stack st) as [|[[act pid] qty] rest] eqn:E.
    { unfold undo_last. now rewrite E. }
    destruct (undo_last_effect _ _ _ _ _ Hcons E) as (prod & c & Hp & _ & H0 & _ & ->).
    simpl. pose proof (map_Forall_lookup_1 _ _ _ _ Hs Hp) as Hq. simpl in Hq.
    unfold stock_nonneg. simpl. apply map_Forall_insert_2; [simpl; lia | exact Hs].
  - now destruct (compute_totals_frame st) as (-> & _).
  - rewrite checkout_summary_frame. now destruct (compute_totals_frame st) as (-> & _).
  - assumption.
  - destruct (on_checkout_cases now st) as [->|[->|(-> & _)]]; try assumption.
    now destruct (compute_totals_frame st) as (-> & _).
  - destruct (on_clear_cart_frame st) as (-> & _).
    apply restore_stock_nonneg; [apply Hcons | assumption].
Qed.

(** X15. Stock never goes below zero in a sale: in a state of a run where
    no product has a negative stock, none has one after any step, be it a
    reservation, an undo, a checkout, a clearing of the cart or a query,
    provided the step does not itself stock or set a negative quantity. In
    particular [add_to_cart] never reserves more than the shelf holds. *)
Theorem stock_stays_nonneg o st :
  reachable st -> keeps_stock o -> stock_nonneg (inventory st) ->
  stock_nonneg (inventory (run o st)).
Proof. intros Hr. apply stock_nonneg_run. now apply reachable_consistent. Qed.

Lemma stock_stays_nonneg_witness :
  stock_nonneg (inventory (run (OpAddToCart 1 90) scenario_reserved)).
Proof.
  apply (stock_stays_nonneg (OpAddToCart 1 90) scenario_reserved).
  - do 2 apply reachable_run. apply reachable_initial.
  - exact I.
  - unfold stock_nonneg. compute_done.
Defined.

End records.

(** ** The handlers of the application *)

Section handlers.

Implicit Types (st : BillingSystem) (e : event).

Lemma cart_rows_converts inv items :
  cart_converts items -> is_Some (cart_rows inv items).
Proof.
  induction items as [|[pid qty] items IH]; intros Hc; simpl; [eauto|].
  inversion_clear Hc as [|? ? [fq Hq] Hc']. simpl in Hq.
  destruct (IH Hc') as [rows Hrows]. rewrite Hrows, Hq.
  destruct (find pid inv); eauto.
Qed.

(** The refresh either stops at a row that raises, with the state as it
    was, or does what [compute_totals] does. *)
Lemma refresh_cases st :
  refresh_cart_table_and_totals st = (Raise OverflowError, st) \/
  refresh_cart_table_and_totals st = compute_totals st.
Proof.
  unfold refresh_cart_table_and_totals.
  destruct (cart_rows (inventory st) (cart st)); auto.
Qed.

(** On an empty cart the refresh is [compute_totals]. *)
Lemma refresh_empty_cart st :
  cart st = [] -> refresh_cart_table_and_totals st = compute_totals st.
Proof. unfold refresh_cart_table_and_totals. now intros ->. Qed.

(** The handler either leaves the state or adds a product that passed its
    checks under a free identifier. *)
Lemma on_add_product_cases form st :
  snd (on_add_product form st) = st \/
  exists prod,
    stocks_valid (OpAddProduct prod) /\
    index (inventory st) !! prod_id prod = None /\
    snd (on_add_product form st) = run (OpAddProduct prod) st.
Proof.
  unfold on_add_product. destruct form as [[[[pid nm] pr] qty]|]; [|now left].
  destruct nm as [|a nm]; [now left|].
  destruct (Float64.ltb pr Float64.zero) eqn:Hpr; [now left|].
  destruct (Z.ltb_spec qty 0); simpl; [now left|].
  destruct (add_product (mkProduct pid (String a nm) pr qty) (inventory st))
    as [[|] inv'] eqn:E; [|now left].
  right. exists (mkProduct pid (String a nm) pr qty). simpl.
  split; [split; [discriminate | split; [lia | assumption]]|].
  unfold run. rewrite E. split; [|reflexivity].
  unfold add_product in E. simpl in E.
  destruct (index (inventory st) !! pid); [discriminate | reflexivity].
Qed.

(** X16. The form of [_on_add_product] lets a product in only with a name
    that is not empty, a quantity that is not negative, a price that is
    not below zero and an identifier that the inventory does not hold; the
    product is then found under its identifier. Every refusal, for fields
    that do not parse, an empty name, a negative value or a taken
    identifier, leaves the state as it was. *)
Theorem on_add_product_validates form st :
  (fst (on_add_product form st) <> ProductAdded -> snd (on_add_product form st) = st) /\
  (fst (on_add_product form st) = ProductAdded ->
   exists pid nm pr qty,
     form = Some (pid, nm, pr, qty) /\
     nm <> EmptyString /\ 0 <= qty /\ Float64.ltb pr Float64.zero = false /\
     find pid (inventory st) = None /\
     snd (on_add_product form st) = run (OpAddProduct (mkProduct pid nm pr qty)) st /\
     find pid (inventory (snd (on_add_product form st))) = Some (mkProduct pid nm pr qty)).
Proof.
  unfold on_add_product. destruct form as [[[[pid nm] pr] qty]|]; [|split; [auto|discriminate]].
  destruct nm as [|a nm]; [split; [auto|discriminate]|].
  destruct (Float64.ltb pr Float64.zero) eqn:Hpr; [split; [auto|discriminate]|].
  destruct (Z.ltb_spec qty 0); simpl; [split; [auto|discriminate]|].
  unfold run, add_product, find. simpl.
  destruct (index (inventory st) !! pid) eqn:Hp; simpl; [split; [auto|discriminate]|].
  split; [congruence|]. intros _. exists pid, (String a nm), pr, qty.
  repeat split; try assumption; try discriminate;
    [now rewrite Hp | apply lookup_insert_eq].
Qed.

Lemma on_add_product_validates_witness :
  snd (on_add_product (Some (1, "Rice"%string, lit_50, -1)) initial) = initial /\
  find 1 (inventory (snd (on_add_product (Some (1, "Rice"%string, lit_50, 100)) initial)))
  = Some rice.
Proof.
  split.
  - apply (proj1 (on_add_product_validates (Some (1, "Rice"%string, lit_50, -1)) initial)).
    discriminate.
  - destruct (proj2 (on_add_product_validates
                       (Some (1, "Rice"%string, lit_50, 100)) initial))
      as (pid & nm & pr & qty & [= <- <- <- <-] & _ & _ & _ & _ & _ & H).
    + reflexivity.
    + exact H.
Defined.

(** Every handler is a few steps of the core, none of which stocks a
    product that the form would refuse. *)
Lemma handle_steps e st :
  exists os, handle e st = run_all os st /\ Forall stocks_valid os.
Proof.
  destruct e as [form| |customer scan| |now|]; unfold handle.
  - destruct (on_add_product_cases form st) as [->|(prod & Hv & _ & ->)].
    + exists []. split; [reflexivity | constructor].
    + exists [OpAddProduct prod]. split; [reflexivity | repeat constructor; apply Hv].
  - exists [OpLowStock 5]. split; [|repeat constructor].
    unfold on_show_low_stock, run_all. simpl.
    now destruct (k_lowest_stock 5 (inventory st)).
  - unfold on_add_to_cart. destruct scan as [[pid qty]|].
    + destruct (add_to_cart pid qty (set_customer_name customer st))
        as [[r|x] st1] eqn:E.
      * assert (st1 = run_all [OpSetCustomer customer; OpAddToCart pid qty] st) as Hst1
          by (unfold run_all; simpl; now rewrite E).
        destruct r as [| | |nm q lt];
          try (exists [OpSetCustomer customer; OpAddToCart pid qty];
               split; [exact Hst1 | repeat constructor]).
        destruct (refresh_cases st1) as [->| ->].
        -- exists [OpSetCustomer customer; OpAddToCart pid qty].
           split; [exact Hst1 | repeat constructor].
        -- exists [OpSetCustomer customer; OpAddToCart pid qty; OpComputeTotals].
           split; [|repeat constructor].
           unfold run_all in *. simpl in *. rewrite <- Hst1.
           now destruct (compute_totals st1) as [[[]|x] st2].
      * exists [OpSetCustomer customer; OpAddToCart pid qty].
        split; [|repeat constructor]. unfold run_all. simpl. now rewrite E.
    + exists [OpSetCustomer customer]. split; [reflexivity | repeat constructor].
  - unfold on_undo. destruct (undo_last st) as [[msg|x] st1] eqn:E.
    + assert (st1 = run_all [OpUndoLast] st) as Hst1
        by (unfold run_all; simpl; now rewrite E).
      destruct (refresh_cases st1) as [->| ->].
      * exists [OpUndoLast]. split; [exact Hst1 | repeat constructor].
      * exists [OpUndoLast; OpComputeTotals]. split; [|repeat constructor].
        unfold run_all in *. simpl in *. rewrite <- Hst1.
        now destruct (compute_totals st1) as [[[]|x] st2].
    + exists [OpUndoLast]. split; [|repeat constructor].
      unfold run_all. simpl. now rewrite E.
  - exists [OpCheckout now]. split; [reflexivity | repeat constructor].
  - exists [OpClearCart]. split; [reflexivity | repeat constructor].
Qed.

Lemma stocks_valid_keeps o : stocks_valid o -> keeps_stock o.
Proof. destruct o; simpl; tauto. Qed.

Lemma catalog_valid_run o st :
  consistent st -> stocks_valid o -> catalog_valid (inventory st) ->
  catalog_valid (inventory (run o st)).
Proof.
  intros Hcons Hv Hcat.
  assert (stock_nonneg (inventory (run o st))) as Hs.
  { apply (stock_nonneg_run o st Hcons (stocks_valid_keeps _ Hv)).
    eapply map_Forall_impl; [exact Hcat|]. simpl. tauto. }
  unfold catalog_valid. rewrite map_Forall_lookup. intros pid p' Hp'.
  pose proof (map_Forall_lookup_1 _ _ _ _ Hs Hp') as Hq. simpl in Hq.
  destruct (run_records o st) as [Hsame|(prod & -> & Hnone & Hi)].
  - destruct (Hsame _ _ Hp') as (p & Hp & Ep).
    destruct (map_Forall_lookup_1 _ _ _ _ Hcat Hp) as (Hn & _ & Hpr).
    rewrite Ep. simpl. rewrite Ep in Hq. auto.
  - rewrite Hi in Hp'. apply lookup_insert_Some in Hp' as [[_ <-]|[_ Hp']].
    + exact Hv.
    + apply (map_Forall_lookup_1 _ _ _ _ Hcat Hp').
Qed.

Lemma catalog_valid_run_all os st :
  reachable st -> Forall stocks_valid os -> catalog_valid (inventory st) ->
  reachable (run_all os st) /\ catalog_valid (inventory (run_all os st)).
Proof.
  intros Hr Hos. revert st Hr. induction Hos as [|o os Ho _ IH]; intros st Hr Hcat;
    [auto|].
  apply (IH (run o st)).
  - now apply reachable_run.
  - apply catalog_valid_run; [now apply reachable_consistent | assumption..].
Qed.

(** X17. A session of the application is a run of the core, and in every
    state of a session every product has a name that is not empty, a
    stock that is not negative and a price that is not below zero: the
    form lets no other product in, and no handler, for a scan, an undo, a
    checkout, a clearing of the cart or a low-stock alert, takes the stock
    of a product below zero or changes its name or its price. *)
Theorem session_catalog_valid st :
  in_session st -> reachable st /\ catalog_valid (inventory st).
Proof.
  induction 1 as [|e st _ [Hr Hcat]].
  - split; [apply reachable_initial | apply map_Forall_empty].
  - destruct (handle_steps e st) as (os & -> & Hos).
    now apply catalog_valid_run_all.
Qed.

Lemma session_catalog_valid_witness :
  catalog_valid
    (inventory
       (handle (EvAddToCart "Ada" (Some (1, 100)))
          (handle (EvAddProduct (Some (1, "Rice"%string, lit_50, 100))) initial))).
Proof.
  apply session_catalog_valid. do 2 apply session_event. apply session_start.
Defined.

Lemma in_session_reachable st : in_session st -> reachable st.
Proof.
  induction 1 as [|e st _ IH]; [apply reachable_initial|].
  destruct (handle_steps e st) as (os & -> & _). now apply reachable_run_all.
Qed.

Lemma quiet_in_session st : quiet_session st -> in_session st.
Proof. induction 1; [apply session_start | now apply session_event]. Qed.

(** The stored totals are those of the cart. *)
Lemma fresh_iff st :
  compute_totals st = (Return tt, st) <->
  sum_lines (inventory st) (cart st) Float64.zero = (true, subtotal st) /\
  discount st = slab (subtotal st).
Proof.
  unfold compute_totals. split.
  - destruct (sum_lines (inventory st) (cart st) Float64.zero) as [[|] s];
      [|discriminate].
    intros [= E]. rewrite <- E at 1 2 3. simpl. auto.
  - intros [-> Hd]. rewrite <- Hd. now destruct st.
Qed.

Lemma fresh_after st st' :
  compute_totals st = (Return tt, st') -> compute_totals st' = (Return tt, st').
Proof.
  unfold compute_totals at 1.
  destruct (sum_lines (inventory st) (cart st) Float64.zero) as [[|] s] eqn:E;
    [|discriminate].
  intros [= <-]. apply fresh_iff. simpl. auto.
Qed.

Lemma sum_lines_insert_fresh inv inv' pid prod items acc :
  Forall (fun e : Z * Z => is_Some (index inv !! e.1)) items ->
  index inv !! pid = None ->
  index inv' = <[pid := prod]> (index inv) ->
  sum_lines inv' items acc = sum_lines inv items acc.
Proof.
  intros Hk Hnone Hi. revert acc.
  induction Hk as [|[k q] items [p Hp] _ IH]; intros acc; simpl; [reflexivity|].
  simpl in Hp. unfold find. rewrite Hi, lookup_insert_ne by congruence.
  rewrite Hp. destruct (Float64.of_int q); [apply IH | reflexivity].
Qed.

(** X18. In a session in which every handler ran to its end, the totals
    that the billing system stores are always those of its cart at the
    current prices: computing them again returns and changes nothing. The
    handlers that change the cart recompute the totals, the others leave
    the cart and the prices of its products alone. *)
Theorem session_totals_fresh st :
  quiet_session st -> compute_totals st = (Return tt, st).
Proof.
  induction 1 as [|e st Hq IH Hret]; [reflexivity|].
  pose proof (in_session_reachable _ (quiet_in_session _ Hq)) as Hr.
  pose proof (reachable_cart_known _ Hr) as Hknown.
  pose proof IH as Hfresh. apply fresh_iff in IH as [Hs Hd].
  destruct e as [form| |customer scan| |now|]; unfold handle; simpl in Hret.
  - destruct (on_add_product_cases form st) as [->|(prod & _ & Hnone & ->)];
      apply fresh_iff; [auto|]. unfold run. simpl. split; [|assumption].
    rewrite <- Hs. apply (sum_lines_insert_fresh _ _ (prod_id prod) prod);
      [assumption | assumption|].
    unfold add_product. now rewrite Hnone.
  - unfold on_show_low_stock.
    destruct (k_lowest_stock_frame 5 (inventory st)) as (Hi & _).
    destruct (k_lowest_stock 5 (inventory st)) as [prods inv']. simpl in *.
    apply fresh_iff. simpl. split; [|assumption].
    rewrite <- Hs. now apply sum_lines_index.
  - destruct Hret as [r Hret]. unfold on_add_to_cart in *.
    assert (compute_totals (set_customer_name customer st)
            = (Return tt, set_customer_name customer st)) as H0
      by (apply fresh_iff; simpl; auto).
    destruct scan as [[pid qty]|]; [|exact H0].
    destruct (add_to_cart_cases pid qty (set_customer_name customer st))
      as [Hsame|(prod & Hp & Hpos & Hle)].
    + destruct (add_to_cart pid qty (set_customer_name customer st))
        as [[[| | |nm q lt]|x] st1]; simpl in Hsame; subst st1; try exact H0.
      destruct (refresh_cases (set_customer_name customer st)) as [E|E];
        rewrite E in *; [discriminate|]. now rewrite H0.
    + destruct (add_to_cart pid qty (set_customer_name customer st))
        as [[[| | |nm q lt]|x] st1] eqn:E; try discriminate.
      * exfalso. destruct (add_to_cart_accepted _ _ _ _ Hp Hpos Hle) as [_ Hf].
        rewrite E in Hf. simpl in Hf. destruct (Float64.of_int qty); discriminate.
      * exfalso. destruct (add_to_cart_accepted _ _ _ _ Hp Hpos Hle) as [_ Hf].
        rewrite E in Hf. simpl in Hf. destruct (Float64.of_int qty); discriminate.
      * exfalso. destruct (add_to_cart_accepted _ _ _ _ Hp Hpos Hle) as [_ Hf].
        rewrite E in Hf. simpl in Hf. destruct (Float64.of_int qty); discriminate.
      * destruct (refresh_cases st1) as [E1|E1]; rewrite E1 in *; [discriminate|].
        destruct (compute_totals st1) as [[[]|x] st2] eqn:E2; [|discriminate].
        simpl. now apply (fresh_after st1).
  - destruct Hret as [r Hret]. unfold on_undo in *.
    destruct (undo_last st) as [[msg|x] st1]; [|discriminate].
    destruct (refresh_cases st1) as [E1|E1]; rewrite E1 in *; [discriminate|].
    destruct (compute_totals st1) as [[[]|x] st2] eqn:E2; [|discriminate].
    simpl. now apply (fresh_after st1).
  - destruct Hret as [r Hret]. unfold on_checkout in *.
    destruct (cart st); [exact Hfresh|].
    destruct (checkout_summary now st) as [[b|x] st1]; [|discriminate].
    rewrite compute_totals_cleared. simpl.
    apply (fresh_after (clear st1)). apply compute_totals_cleared.
  - unfold on_clear_cart.
    destruct (compute_totals (clear (set_inventory (restore_stock (cart st) (inventory st)) st)))
      as [[[]|x] st2] eqn:E; [|rewrite compute_totals_cleared in E; discriminate].
    simpl. now apply (fresh_after _ _ E).
Qed.

Lemma session_totals_fresh_witness :
  let st := handle (EvAddToCart "Ada" (Some (1, 10)))
              (handle (EvAddProduct (Some (1, "Rice"%string, lit_50, 100))) initial) in
  quiet_session st /\ compute_totals st = (Return tt, st).
Proof.
  assert (quiet_session
            (handle (EvAddToCart "Ada" (Some (1, 10)))
               (handle (EvAddProduct (Some (1, "Rice"%string, lit_50, 100))) initial)))
    as Hq.
  { apply quiet_event; [apply quiet_event; [apply quiet_start | exact I]|].
    eexists. vm_compute. reflexivity. }
  split; [exact Hq | exact (session_totals_fresh _ Hq)].
Defined.

End handlers.
